(** * HTTPJobQueue: the job-board polling queue of the worker

  A shallow embedding of [http_job_queue.go]: the queue facade [Jobs], one
  poll attempt [pollForJobs], the id fetch [fetchJobID] and the detail fetch
  [fetchJob], with the HTTP transport, the clock and the processor pool as
  the environment.  Logging and metrics calls have no effect on the values
  studied here and are left out. *)

From stdpp Require Import gmap strings list.
From Stdlib Require Import ZArith NArith Ascii String DecimalString.

Local Open Scope string_scope.
Local Open Scope list_scope.

(** ** Library functions the queue calls *)

Module strconv.

(** [strconv.NumError.Err]: the two ways a decimal parse fails. *)
Inductive NumError := ErrSyntax | ErrRange.

Definition maxUint64 : N := 18446744073709551615.

(** The first value of the accumulator for which multiplying by the base
    overflows 64 bits: [maxUint64/10 + 1]. *)
Definition cutoff : N := maxUint64 / 10 + 1.

Definition digit (c : ascii) : option N :=
  let n := N_of_ascii c in
  if ((48 <=? n) && (n <=? 57))%N then Some (n - 48)%N else None.

(** The digit loop of [ParseUint(s, 10, 64)]: a character that is no
    decimal digit is a syntax error, an accumulator at or past [cutoff] or
    a sum past [maxUint64] is a range error. *)
Fixpoint parseDigits (s : string) (n : N) : NumError + N :=
  match s with
  | EmptyString => inr n
  | String c s' =>
      match digit c with
      | None => inl ErrSyntax
      | Some d =>
          if (cutoff <=? n)%N then inl ErrRange
          else
            let n1 := (n * 10 + d)%N in
            if (maxUint64 <? n1)%N then inl ErrRange
            else parseDigits s' n1
      end
  end.

(** [strconv.ParseUint(s, 10, 64)]. *)
Definition ParseUint (s : string) : NumError + N :=
  match s with
  | EmptyString => inl ErrSyntax
  | _ => parseDigits s 0
  end.

(** [strconv.FormatUint(n, 10)]: the decimal digits of [n], no sign and no
    leading zero. *)
Definition FormatUint (n : N) : string :=
  NilZero.string_of_uint (N.to_uint n).

(** [strconv.Itoa(i)]. *)
Definition Itoa (i : Z) : string :=
  match i with
  | Zneg p => String "-"%char (FormatUint (Npos p))
  | _ => FormatUint (Z.to_N i)
  end.

End strconv.

(** Go [error] values, as far as the queue builds or wraps them. *)
Inductive error :=
| httpJobQueueNoJobsErr
| NumError (func : string) (num : string) (e : strconv.NumError)
| TransportError (msg : string)
| DecodeError (msg : string)
| StatusError (expected actual : Z)
| Wrap (cause : error) (msg : string).

(** [time.Duration], in nanoseconds. *)
Definition Duration := Z.
Definition Second : Duration := 1000000000%Z.
Definition Minute : Duration := (60 * Second)%Z.

Module url.

(** [url.Values]: a key maps to the list of its values. *)
Abbreviation Values := (gmap string (list string)).

Definition Add (key value : string) (v : Values) : Values :=
  <[key := v !!! key ++ [value]]> v.

(** [url.URL]; the raw query is kept in the parsed form that [Query]
    returns and [Encode] writes back. *)
Record URL := mkURL {
  Scheme : string;
  Host : string;
  Path : string;
  RawQuery : Values
}.

End url.

Module http.

Definition StatusOK : Z := 200%Z.

(** [http.Header] has the shape of [url.Values]; the header names the
    queue adds are already in canonical form. *)
Abbreviation Header := (gmap string (list string)).

Record Request (B : Type) := mkRequest {
  Method : string;
  URL : url.URL;
  Header_ : Header;
  Body : option B
}.
Arguments mkRequest {B}.
Arguments Method {B}.
Arguments URL {B}.
Arguments Header_ {B}.
Arguments Body {B}.

(** A read of a body that fails: the bytes the body delivered before the
    failure, and the error of the failing read.  Where an [error] is
    expected, a failure stands for its error (by the coercion declared
    after the module). *)
Record ReadFailure := mkReadFailure {
  delivered : string;
  cause : error
}.

(** A response: the status and what reading the body gives, either all its
    bytes up to the end, or a failure after the bytes delivered so far.
    [ioutil.ReadAll] returns the one or the other; a streaming decoder may
    have its value before a failure strikes (see [decodeBody]). *)
Record Response := mkResponse {
  StatusCode : Z;
  RespBody : ReadFailure + string
}.

End http.

Coercion http.cause : http.ReadFailure >-> error.

(** [simplejson.Json]: an untyped JSON tree. *)
Module simplejson.

#[warnings="-register-all"]
Inductive Json :=
| JNull
| JBool (b : bool)
| JNumber (literal : string)
| JString (s : string)
| JArray (elems : list Json)
| JObject (members : list (string * Json)).

Fixpoint member (key : string) (members : list (string * Json)) : option Json :=
  match members with
  | [] => None
  | (k, v) :: rest => if String.eqb k key then Some v else member key rest
  end.

(** [Get]: the member [key] of an object, and the null tree when the
    receiver is no object or has no such member. *)
Definition Get (j : Json) (key : string) : Json :=
  match j with
  | JObject members => default JNull (member key members)
  | _ => JNull
  end.

End simplejson.

Module backoff.

(** [backoff.ExponentialBackOff], the duration fields.  What [NextBackOff]
    returns depends on the clock and on a random draw, so the world holds
    the answers of the coming calls (see [World]). *)
Record ExponentialBackOff := mkExponentialBackOff {
  InitialInterval : Duration;
  MaxInterval : Duration;
  MaxElapsedTime : Duration
}.

Definition NewExponentialBackOff : ExponentialBackOff :=
  {| InitialInterval := (500 * 1000000)%Z;
     MaxInterval := (60 * Second)%Z;
     MaxElapsedTime := (15 * Minute)%Z |}.

Definition set_MaxInterval (d : Duration) (b : ExponentialBackOff) :=
  {| InitialInterval := InitialInterval b;
     MaxInterval := d;
     MaxElapsedTime := MaxElapsedTime b |}.

Definition set_MaxElapsedTime (d : Duration) (b : ExponentialBackOff) :=
  {| InitialInterval := InitialInterval b;
     MaxInterval := MaxInterval b;
     MaxElapsedTime := d |}.

End backoff.

Module backend.

(** Modelled from the spec: [backend.StartAttributes], a type of the backend
    package, whose source is not part of this development.  These are the fields the
    queue sets or defaults: language, distro, group, OS and VM type. *)
Record StartAttributes := mkStartAttributes {
  Language : string;
  Dist : string;
  Group : string;
  OS : string;
  VMType : string
}.

Definition set_VMType (v : string) (sa : StartAttributes) : StartAttributes :=
  {| Language := Language sa; Dist := Dist sa; Group := Group sa;
     OS := OS sa; VMType := v |}.

Definition orDefault (field def : string) : string :=
  if String.eqb field "" then def else field.

(** Modelled from the spec: [StartAttributes.SetDefaults], a method of the
    backend package, whose source is not part of this development.  It applies the given
    defaults (language, distro, group, OS, VM type) to the fields left unset
    and does not override a value that is present. *)
Definition SetDefaults (lang dist group os vmType : string)
    (sa : StartAttributes) : StartAttributes :=
  {| Language := orDefault (Language sa) lang;
     Dist := orDefault (Dist sa) dist;
     Group := orDefault (Group sa) group;
     OS := orDefault (OS sa) os;
     VMType := orDefault (VMType sa) vmType |}.

End backend.

(** ** The data model of the queue *)

(** Modelled from the spec: [Processor] is declared in another file of the
    package.  The pool exposes, for each processor, its current status and
    the id of the job it claimed last. *)
Record Processor := mkProcessor {
  CurrentStatus : string;
  LastJobID : N
}.

(** [ProcessorEacherSizer]: the interface value the queue holds, given by
    what its two methods do: [Each] calls back on [visited], in order, and
    [Size] returns a count. *)
Record ProcessorEacherSizer := mkPool {
  visited : list (Z * Processor);
  Size : Z
}.

Definition Each {S : Type} (p : ProcessorEacherSizer)
    (f : Z -> Processor -> S -> S) (s : S) : S :=
  foldl (fun acc ip => f ip.1 ip.2 acc) s (visited p).

(** [chan Job]: a channel is known by its identity. *)
Definition Chan := nat.

(** The queue object.  [buildJobChan] is [None] for Go's nil channel.  The
    mutex field is not represented: it makes every [Jobs] call one atomic
    step, which is how [Jobs] is written below. *)
Record HTTPJobQueue := mkHTTPJobQueue {
  processors : ProcessorEacherSizer;
  jobBoardURL : url.URL;
  site : string;
  providerName : string;
  queue : string;
  workerID : string;
  buildJobChan : option Chan;
  pollInterval : Duration;
  DefaultLanguage : string;
  DefaultDist : string;
  DefaultGroup : string;
  DefaultOS : string
}.

(** The assignment [q.buildJobChan = c]. *)
Definition set_buildJobChan (c : option Chan) (q : HTTPJobQueue) : HTTPJobQueue :=
  {| processors := processors q;
     jobBoardURL := jobBoardURL q;
     site := site q;
     providerName := providerName q;
     queue := queue q;
     workerID := workerID q;
     buildJobChan := c;
     pollInterval := pollInterval q;
     DefaultLanguage := DefaultLanguage q;
     DefaultDist := DefaultDist q;
     DefaultGroup := DefaultGroup q;
     DefaultOS := DefaultOS q |}.

Definition NewHTTPJobQueue (processors : ProcessorEacherSizer)
    (jobBoardURL : url.URL) (site providerName queue workerID : string)
    : HTTPJobQueue * option error :=
  ({| processors := processors;
      jobBoardURL := jobBoardURL;
      site := site;
      providerName := providerName;
      queue := queue;
      workerID := workerID;
      buildJobChan := None;
      pollInterval := Second;
      DefaultLanguage := "";
      DefaultDist := "";
      DefaultGroup := "";
      DefaultOS := "" |}, None).

Inductive httpPollState :=
| httpPollStateSleep
| httpPollStateContinue
| httpPollStateBreak.

Record httpFetchJobsRequest := mkFetchJobsRequest { Jobs_req : list string }.
Record httpFetchJobsResponse := mkFetchJobsResponse { Jobs_resp : list string }.

(** Modelled from the spec: the payload types are declared in other files of
    the package.  The payload carries a VM type and the start attributes sit
    under [data.config]; the fields are those [fetchJob] reads.  A pointer
    field is an [option]: [None] is the nil pointer that decoding a JSON
    null stores. *)
Record JobPayload := mkJobPayload { VMType : string }.
Record httpJobPayload := mkHttpJobPayload { Data : option JobPayload }.
Record jobPayloadStartAttrs := mkJobPayloadStartAttrs {
  Config : option backend.StartAttributes
}.
Record httpJobPayloadStartAttrs := mkHttpJobPayloadStartAttrs {
  Data_sa : option jobPayloadStartAttrs
}.

(** Modelled from the spec: the job descriptor [httpJob], declared in
    another file of the package, with the fields [fetchJob] sets: payload,
    raw payload, start attributes, and the job-board URL, site and worker id
    it was fetched under. *)
Record httpJob := mkHttpJob {
  payload : httpJobPayload;
  rawPayload : simplejson.Json;
  startAttributes : backend.StartAttributes;
  job_jobBoardURL : url.URL;
  job_site : string;
  job_workerID : string
}.

(** What the decoders and the rest of the package supply: the decoding of a
    response body into each of the Go values it is decoded into, and the
    package constant [VMTypeDefault], which is declared in another file and
    is taken as a parameter.  [completeValue] tells whether the bytes hold
    a whole JSON value for a [json.Decoder], so that it returns without
    reading on. *)
Class Externals := {
  decodeFetchJobsResponse : string -> error + option httpFetchJobsResponse;
  completeValue : string -> bool;
  unmarshalPayload : string -> error + httpJobPayload;
  unmarshalStartAttrs : string -> error + option httpJobPayloadStartAttrs;
  NewJson : string -> error + simplejson.Json;
  VMTypeDefault : string
}.

(** ** The world the queue runs in *)

(** [gocontext.Context], as one poll attempt sees it: whether [Done()] is
    closed at the moment the attempt selects on it. *)
Record Context := mkContext { Done : bool }.

(** The outcome of the first [select] of a poll attempt: a value arrived on
    [ready], or the [time.After(q.pollInterval)] timer fired first. *)
Inductive ReadyChan := ReadyFirst | TimeoutFirst.

(** What [client.Do] hands back: the response pointer and the error.  The
    type has room for a nil response with a nil error, which [net/http]
    never returns; the code would dereference the nil response there. *)
Definition DoResult : Type := option http.Response * option error.

Abbreviation JobsRequest := (http.Request httpFetchJobsRequest).

(** The effects of the queue that the outside can see, in program order. *)
Inductive Event :=
| EvDo (req : JobsRequest)
| EvClose
| EvSleep (d : Duration)
| EvSend (c : Chan) (job : option httpJob)
| EvGo (c : Chan).

(** - [q]: the queue object behind the receiver pointer;
    - [transport]: what the coming [client.Do] calls return, the transport
      failing once the list is used up;
    - [nextBackOffs]: what the coming [NextBackOff] calls return, [None]
      and the end of the list being [backoff.Stop];
    - [trace]: the events so far, oldest first;
    - [nextChan]: the identity [make(chan Job)] gives out next. *)
Record World := mkWorld {
  q : HTTPJobQueue;
  transport : list DoResult;
  nextBackOffs : list (option Duration);
  trace : list Event;
  nextChan : Chan
}.

(** A call either returns a value or panics (a nil pointer dereference). *)
Inductive Outcome (A : Type) :=
| Returns (a : A) (w : World)
| Panics (w : World).
Arguments Returns {A}.
Arguments Panics {A}.

Definition M (A : Type) : Type := World -> Outcome A.

Definition ret {A} (a : A) : M A := fun w => Returns a w.

Definition bind {A B} (m : M A) (k : A -> M B) : M B :=
  fun w => match m w with
           | Returns a w' => k a w'
           | Panics w' => Panics w'
           end.

Definition panic {A} : M A := fun w => Panics w.

Declare Scope go_scope.
Delimit Scope go_scope with go.
Notation "x <- m ;; k" := (bind m (fun x => k))
  (at level 100, m at next level, right associativity) : go_scope.
Notation "m ;;; k" := (bind m (fun _ => k))
  (at level 100, right associativity) : go_scope.
Local Open Scope go_scope.

Definition worldOf {A} (o : Outcome A) : World :=
  match o with Returns _ w => w | Panics w => w end.

Definition getQ : M HTTPJobQueue := fun w => Returns (q w) w.

Definition putQ (q' : HTTPJobQueue) : M unit := fun w =>
  Returns tt {| q := q'; transport := transport w;
                nextBackOffs := nextBackOffs w; trace := trace w;
                nextChan := nextChan w |}.

Definition emitW (e : Event) (w : World) : World :=
  {| q := q w; transport := transport w; nextBackOffs := nextBackOffs w;
     trace := trace w ++ [e]; nextChan := nextChan w |}.

Definition emit (e : Event) : M unit := fun w => Returns tt (emitW e w).

(** [defer resp.Body.Close()]: the body is closed when the rest of the
    function is left, by return or by panic. *)
Definition deferClose {A} (rest : M A) : M A := fun w =>
  match rest w with
  | Returns a w' => Returns a (emitW EvClose w')
  | Panics w' => Panics (emitW EvClose w')
  end.

(** [client.Do(req)]. *)
Definition Do (req : JobsRequest) : M DoResult := fun w =>
  let w' := emitW (EvDo req) w in
  match transport w with
  | [] =>
      Returns (None, Some (TransportError "no response"))
        {| q := q w'; transport := []; nextBackOffs := nextBackOffs w';
           trace := trace w'; nextChan := nextChan w' |}
  | r :: rest =>
      Returns r
        {| q := q w'; transport := rest; nextBackOffs := nextBackOffs w';
           trace := trace w'; nextChan := nextChan w' |}
  end.

(** [b.NextBackOff()]. *)
Definition NextBackOff (b : backoff.ExponentialBackOff) : M (option Duration) :=
  fun w =>
    Returns (mjoin (head (nextBackOffs w)))
      {| q := q w; transport := transport w;
         nextBackOffs := tail (nextBackOffs w); trace := trace w;
         nextChan := nextChan w |}.

(** [make(chan Job)]. *)
Definition makeChan : M Chan := fun w =>
  Returns (nextChan w)
    {| q := q w; transport := transport w; nextBackOffs := nextBackOffs w;
       trace := trace w; nextChan := S (nextChan w) |}.

(** [backoff.Retry(operation, b)]: run the operation until it returns no
    error or [NextBackOff] returns [Stop], sleeping in between.  The
    operation also yields the value it assigns to the variable it captures.
    The loop runs at most once more than there are answers left in
    [nextBackOffs]. *)
Fixpoint retryLoop {X} (fuel : nat) (operation : M (X * option error))
    (b : backoff.ExponentialBackOff) : M (X * option error) :=
  r <- operation ;;
  match r.2 with
  | None => ret r
  | Some err =>
      next <- NextBackOff b ;;
      match next, fuel with
      | Some d, S fuel' => emit (EvSleep d) ;;; retryLoop fuel' operation b
      | _, _ => ret r
      end
  end.

Definition Retry {X} (operation : M (X * option error))
    (b : backoff.ExponentialBackOff) : M (X * option error) :=
  fun w => retryLoop (List.length (nextBackOffs w)) operation b w.

(** ** The operations of the queue *)

(** A Go result pair [(value, error)] with exactly one side set. *)
Inductive result (A : Type) :=
| Ok (a : A)
| Err (e : error).
Arguments Ok {A}.
Arguments Err {A}.

(** The callback [fetchJobID] hands to [Each]. *)
Definition collectProcessing (i : Z) (p : Processor)
    (fetchRequestPayload : httpFetchJobsRequest) : httpFetchJobsRequest :=
  if String.eqb (CurrentStatus p) "processing"
  then {| Jobs_req := Jobs_req fetchRequestPayload
                        ++ [strconv.FormatUint (LastJobID p)] |}
  else fetchRequestPayload.

(** The inner loop over the request's ids: the flag is set when some id of
    the request equals [strID] as a string. *)
Definition alreadyRunning (strID : string) (prevJobs : list string) : bool :=
  foldl (fun flag prevStrID => if String.eqb strID prevStrID then true else flag)
        false prevJobs.

(** The outer loop over the response's ids: a running id is skipped, any
    other is parsed and appended, and a parse failure leaves the function. *)
Fixpoint filterJobIDs (respJobs prevJobs : list string) (jobIDs : list N)
    : result (list N) :=
  match respJobs with
  | [] => Ok jobIDs
  | strID :: rest =>
      if alreadyRunning strID prevJobs then filterJobIDs rest prevJobs jobIDs
      else
        match strconv.ParseUint strID with
        | inl e => Err (Wrap (NumError "ParseUint" strID e) "failed to parse job ID")
        | inr id => filterJobIDs rest prevJobs (jobIDs ++ [id])
        end
  end.

Definition firstJobID (jobIDs : list N) : result N :=
  match jobIDs with
  | [] => Err httpJobQueueNoJobsErr
  | id :: _ => Ok id
  end.

Definition set_Path_RawQuery (path : string) (query : url.Values) (u : url.URL)
    : url.URL :=
  {| url.Scheme := url.Scheme u; url.Host := url.Host u;
     url.Path := path; url.RawQuery := query |}.

(** [http.NewRequest]; its error branch needs a method or a URL that does
    not parse, which the literal methods and the parsed URL of the queue
    rule out. *)
Definition NewRequest {B} (method : string) (u : url.URL) (body : option B)
    : http.Request B :=
  {| http.Method := method; http.URL := u; http.Header_ := ∅;
     http.Body := body |}.

Definition HeaderAdd {B} (key value : string) (req : http.Request B)
    : http.Request B :=
  {| http.Method := http.Method req; http.URL := http.URL req;
     http.Header_ := url.Add key value (http.Header_ req);
     http.Body := http.Body req |}.

(** The request [fetchJobID] builds from the queue and from the payload it
    has collected. *)
Definition fetchJobIDRequest (q : HTTPJobQueue)
    (fetchRequestPayload : httpFetchJobsRequest) : JobsRequest :=
  let u := jobBoardURL q in
  let query := url.RawQuery u in
  let query := url.Add "count" "1" query in
  let query := url.Add "capacity" (strconv.Itoa (Size (processors q))) query in
  let query := url.Add "queue" (queue q) query in
  let u := set_Path_RawQuery "/jobs" query u in
  let req := NewRequest "POST" u (Some fetchRequestPayload) in
  let req := HeaderAdd "Content-Type" "application/json" req in
  let req := HeaderAdd "Travis-Site" (site q) req in
  HeaderAdd "From" (workerID q) req.

(** The request [fetchJob] builds for the job [id]. *)
Definition fetchJobRequest (q : HTTPJobQueue) (id : N) : JobsRequest :=
  let u := jobBoardURL q in
  let u := set_Path_RawQuery ("/jobs/" +:+ strconv.FormatUint id)
                             (url.RawQuery u) u in
  let req := NewRequest "GET" u None in
  let req := HeaderAdd "Travis-Infrastructure" (providerName q) req in
  let req := HeaderAdd "Travis-Site" (site q) req in
  HeaderAdd "From" (workerID q) req.

(** The backoff policy of [fetchJob]. *)
Definition fetchJobBackOff : backoff.ExponentialBackOff :=
  let bo := backoff.NewExponentialBackOff in
  let bo := backoff.set_MaxInterval (10 * Second)%Z bo in
  backoff.set_MaxElapsedTime (1 * Minute)%Z bo.

(** The operation [fetchJob] retries; the first component is the value it
    leaves in the captured [resp]. *)
Definition fetchJobAttempt (req : JobsRequest)
    : M (option http.Response * option error) :=
  r <- Do req ;;
  match r with
  | (Some resp, err) =>
      if negb (http.StatusCode resp =? http.StatusOK)%Z
      then
        emit EvClose ;;;
        ret (Some resp, Some (StatusError http.StatusOK (http.StatusCode resp)))
      else ret (Some resp, err)
  | (None, err) => ret (None, err)
  end.

Section Operations.
Context `{Externals}.

(** [json.NewDecoder(resp.Body).Decode(&fetchResponsePayload)]: the decoder
    reads the body as a stream.  On a body that is read to its end it
    decodes the bytes; on a body whose read fails it has either a whole
    value by then, and decodes it without meeting the failure, or it
    returns the error of the read. *)
Definition decodeBody (resp : http.Response)
    : error + option httpFetchJobsResponse :=
  match http.RespBody resp with
  | inr body => decodeFetchJobsResponse body
  | inl failure =>
      if completeValue (http.delivered failure)
      then decodeFetchJobsResponse (http.delivered failure)
      else inl (http.cause failure)
  end.

Definition fetchJobID (ctx : Context) : M (result N) :=
  q <- getQ ;;
  let fetchRequestPayload :=
    Each (processors q) collectProcessing {| Jobs_req := [] |} in
  let req := fetchJobIDRequest q fetchRequestPayload in
  r <- Do req ;;
  match r with
  | (_, Some err) => ret (Err (Wrap err "failed to make job board jobs request"))
  | (None, None) => panic
  | (Some resp, None) =>
      deferClose
        match decodeBody resp with
        | inl err =>
            ret (Err (Wrap err "failed to decode job board jobs response"))
        | inr None => panic
        | inr (Some fetchResponsePayload) =>
            match filterJobIDs (Jobs_resp fetchResponsePayload)
                               (Jobs_req fetchRequestPayload) [] with
            | Err e => ret (Err e)
            | Ok jobIDs => ret (firstJobID jobIDs)
            end
        end
  end.

(** The last three statements of [fetchJob]: take the parsed start
    attributes, overwrite their VM type with the payload's, apply the
    defaults.  Each nil pointer on the way panics. *)
Definition mergeStartAttributes (q : HTTPJobQueue) (payload : httpJobPayload)
    (startAttrs : option httpJobPayloadStartAttrs)
    : M backend.StartAttributes :=
  match startAttrs with
  | None => panic
  | Some sa =>
      match Data_sa sa with
      | None => panic
      | Some data =>
          match Config data, Data payload with
          | Some config, Some payloadData =>
              let startAttributes := backend.set_VMType (VMType payloadData) config in
              ret (backend.SetDefaults (DefaultLanguage q) (DefaultDist q)
                     (DefaultGroup q) (DefaultOS q) VMTypeDefault startAttributes)
          | _, _ => panic
          end
      end
  end.

(** The statements of [fetchJob] that follow the retry, on the response in
    hand: read the body, parse it three ways, merge, build the job. *)
Definition readJob (q : HTTPJobQueue) (resp : http.Response)
    : M (result httpJob) :=
  match http.RespBody resp with
  | inl err =>
      ret (Err (Wrap err "error reading body from job board job request"))
  | inr body =>
      match unmarshalPayload body with
      | inl err => ret (Err (Wrap err "failed to unmarshal job board payload"))
      | inr payload =>
          match unmarshalStartAttrs body with
          | inl err =>
              ret (Err (Wrap err
                     "failed to unmarshal start attributes from job board"))
          | inr startAttrs =>
              match NewJson body with
              | inl err =>
                  ret (Err (Wrap err
                         "failed to parse raw payload with simplejson"))
              | inr rawPayload =>
                  startAttributes <- mergeStartAttributes q payload startAttrs ;;
                  ret (Ok {| payload := payload;
                             rawPayload := simplejson.Get rawPayload "data";
                             startAttributes := startAttributes;
                             job_jobBoardURL := jobBoardURL q;
                             job_site := site q;
                             job_workerID := workerID q |})
              end
          end
      end
  end.

Definition fetchJob (ctx : Context) (id : N) : M (result httpJob) :=
  q <- getQ ;;
  let req := fetchJobRequest q id in
  let bo := fetchJobBackOff in
  r <- Retry (fetchJobAttempt req) bo ;;
  match r with
  | (_, Some err) => ret (Err (Wrap err "error making job board job request"))
  | (None, None) => panic
  | (Some resp, None) => deferClose (readJob q resp)
  end.

(** One poll attempt.  A send on the unbuffered [buildJobChan] is the
    hand-off of the value to the consumer. *)
Definition pollForJobs (ctx : Context) (ready : ReadyChan) (buildJobChan : Chan)
    : M httpPollState :=
  match ready with
  | TimeoutFirst => ret httpPollStateContinue
  | ReadyFirst =>
      r <- fetchJobID ctx ;;
      match r with
      | Err err => ret httpPollStateSleep
      | Ok jobID =>
          r <- fetchJob ctx jobID ;;
          match r with
          | Err err =>
              emit (EvSend buildJobChan None) ;;;
              ret httpPollStateSleep
          | Ok buildJob =>
              emit (EvSend buildJobChan (Some buildJob)) ;;;
              if Done ctx
              then
                q <- getQ ;;
                putQ (set_buildJobChan None q) ;;;
                ret httpPollStateBreak
              else ret httpPollStateSleep
          end
      end
  end.

(** The body of the goroutine [Jobs] starts, over the attempts the
    environment lets it make: each attempt comes with what its two selects
    see. *)
Fixpoint pollLoop (attempts : list (Context * ReadyChan)) (buildJobChan : Chan)
    : M unit :=
  match attempts with
  | [] => ret tt
  | (ctx, ready) :: rest =>
      s <- pollForJobs ctx ready buildJobChan ;;
      match s with
      | httpPollStateSleep =>
          q <- getQ ;;
          emit (EvSleep (pollInterval q)) ;;;
          pollLoop rest buildJobChan
      | httpPollStateContinue => pollLoop rest buildJobChan
      | httpPollStateBreak => ret tt
      end
  end.

(** [Jobs]: under the mutex, return the stored channel, or make one, start
    the poll loop on it and store it. *)
Definition Jobs (ctx : Context) (ready : ReadyChan) : M (Chan * option error) :=
  q <- getQ ;;
  match buildJobChan q with
  | Some c => ret (c, None)
  | None =>
      buildJobChan <- makeChan ;;
      emit (EvGo buildJobChan) ;;;
      q <- getQ ;;
      putQ (set_buildJobChan (Some buildJobChan) q) ;;;
      ret (buildJobChan, None)
  end.

Definition Name : M string := ret "http".

Definition Cleanup : M (option error) := ret None.

End Operations.

(** ** Notions used to state the properties *)

(** The value a call returns, if it returns. *)
Definition resultOf {A} (o : Outcome A) : option A :=
  match o with Returns a _ => Some a | Panics _ => None end.

(** The in-flight ids [fetchJobID] collects from the pool, and the request
    it sends with them. *)
Definition inFlight (q : HTTPJobQueue) : list string :=
  Jobs_req (Each (processors q) collectProcessing {| Jobs_req := [] |}).

Definition sentRequest (q : HTTPJobQueue) : JobsRequest :=
  fetchJobIDRequest q (Each (processors q) collectProcessing {| Jobs_req := [] |}).

(** The processors whose ids the id fetch reports. *)
Definition isProcessing (ip : Z * Processor) : Prop :=
  CurrentStatus ip.2 = "processing".

#[local] Instance isProcessing_dec ip : Decision (isProcessing ip).
Proof. unfold isProcessing. apply _. Defined.

(** The candidates of a response that are not in the in-flight list. *)
Definition remaining (respJobs prevJobs : list string) : list string :=
  filter (λ strID, strID ∉ prevJobs) respJobs.

(** The value of an id string that parses. *)
Definition parsed (strID : string) : option N :=
  match strconv.ParseUint strID with
  | inr id => Some id
  | inl _ => None
  end.

Definition isParseError (e : error) : Prop :=
  ∃ strID e', e = Wrap (NumError "ParseUint" strID e') "failed to parse job ID"
              ∧ strconv.ParseUint strID = inl e'.

(** The requests, the sends and the loop starts of a trace. *)
Definition requests (t : list Event) : list JobsRequest :=
  omap (λ e, match e with EvDo req => Some req | _ => None end) t.

Definition sends (t : list Event) : list (Chan * option httpJob) :=
  omap (λ e, match e with EvSend c job => Some (c, job) | _ => None end) t.

Definition loopStarts (t : list Event) : list Chan :=
  omap (λ e, match e with EvGo c => Some c | _ => None end) t.

(** Whether one call of the retried operation returns an error, and whether
    it closes the body of the response it got. *)
Definition attemptFails (r : DoResult) : bool :=
  match r with
  | (Some resp, err) =>
      negb (http.StatusCode resp =? http.StatusOK)%Z || bool_decide (err ≠ None)
  | (None, err) => bool_decide (err ≠ None)
  end.

Definition attemptCloses (r : DoResult) : bool :=
  match r with
  | (Some resp, _) => negb (http.StatusCode resp =? http.StatusOK)%Z
  | (None, _) => false
  end.

(** The error one call of the retried operation returns. *)
Definition attemptError (r : DoResult) : option error :=
  match r with
  | (Some resp, err) =>
      if negb (http.StatusCode resp =? http.StatusOK)%Z
      then Some (StatusError http.StatusOK (http.StatusCode resp))
      else err
  | (None, err) => err
  end.

(** The events of a run of failed attempts, each followed by its sleep. *)
Fixpoint retryTrace (req : JobsRequest) (failed : list DoResult)
    (sleeps : list Duration) : list Event :=
  match failed, sleeps with
  | r :: failed', d :: sleeps' =>
      EvDo req :: (if attemptCloses r then [EvClose] else [])
        ++ EvSleep d :: retryTrace req failed' sleeps'
  | _, _ => []
  end.

(** A computation that leaves the queue object alone, sends nothing on a
    channel, starts no goroutine and makes no channel. *)
Definition quiet {A} (m : M A) : Prop :=
  ∀ w, let w' := worldOf (m w) in
       q w' = q w ∧ sends (trace w') = sends (trace w) ∧
       loopStarts (trace w') = loopStarts (trace w) ∧ nextChan w' = nextChan w.

(** The configuration of two queue objects is the same: they differ at most
    in [buildJobChan]. *)
Definition sameConfig (q q' : HTTPJobQueue) : Prop :=
  q' = set_buildJobChan (buildJobChan q') q.

(** The configuration fields of the queue object. *)
Definition configOf (q : HTTPJobQueue) :=
  (jobBoardURL q, site q, providerName q, queue q, workerID q, pollInterval q,
   DefaultLanguage q, DefaultDist q, DefaultGroup q, DefaultOS q).

(** A computation that writes no field of the queue object but
    [buildJobChan]. *)
Definition frames {A} (m : M A) : Prop :=
  ∀ w, sameConfig (q w) (q (worldOf (m w))).

(** A series of [Jobs] calls on one queue, the channels they return and the
    errors they return. *)
Fixpoint callJobs `{Externals} (calls : list (Context * ReadyChan))
    : M (list (Chan * option error)) :=
  match calls with
  | [] => ret []
  | (ctx, ready) :: rest =>
      r <- Jobs ctx ready ;;
      rs <- callJobs rest ;;
      ret (r :: rs)
  end.

(** The sleeps of a trace. *)
Definition sleepsOf (t : list Event) : list Duration :=
  omap (λ e, match e with EvSleep d => Some d | _ => None end) t.

(** What the next [client.Do] call returns in a world. *)
Definition nextAnswer (w : World) : DoResult :=
  match transport w with
  | [] => (None, Some (TransportError "no response"))
  | r :: _ => r
  end.

(** An id string in the form [FormatUint] writes: the decimal digits of its
    value without leading zeros. *)
Definition canonical (strID : string) : Prop :=
  ∀ id, parsed strID = Some id → strID = strconv.FormatUint id.

(** The world after a call, and whether the call panicked. *)
Definition panicked {A} (o : Outcome A) : Prop :=
  match o with Panics _ => True | Returns _ _ => False end.

(** ** Concrete environments *)

Module Sample.

(** Decoders that give the same values for every body. *)
Definition fixedExternals (jobs : error + option httpFetchJobsResponse)
    (payload : error + httpJobPayload)
    (startAttrs : error + option httpJobPayloadStartAttrs)
    (raw : error + simplejson.Json) (vmTypeDefault : string) : Externals :=
  {| decodeFetchJobsResponse := λ _, jobs;
     completeValue := λ _, true;
     unmarshalPayload := λ _, payload;
     unmarshalStartAttrs := λ _, startAttrs;
     NewJson := λ _, raw;
     VMTypeDefault := vmTypeDefault |}.

(** A job board that answers the id fetch with the given candidates and has
    no readable job. *)
Definition jobBoard (candidates : list string) : Externals :=
  fixedExternals (inr (Some {| Jobs_resp := candidates |}))
    (inl (DecodeError "unexpected end of JSON input"))
    (inl (DecodeError "unexpected end of JSON input"))
    (inl (DecodeError "unexpected end of JSON input"))
    "default".

(** A job board whose job has the given payload VM type and the given
    start attributes. *)
Definition jobBoardWithJob (candidates : list string) (vmType : string)
    (config : backend.StartAttributes) : Externals :=
  fixedExternals (inr (Some {| Jobs_resp := candidates |}))
    (inr {| Data := Some {| VMType := vmType |} |})
    (inr (Some {| Data_sa := Some {| Config := Some config |} |}))
    (inr (simplejson.JObject [("data", simplejson.JObject [])]))
    "default".

(** A pool of two processors: number 7 is processing job 42, number 8 is
    idle after job 41. *)
Definition pool : ProcessorEacherSizer :=
  {| visited := [(7%Z, {| CurrentStatus := "processing"; LastJobID := 42 |});
                 (8%Z, {| CurrentStatus := "waiting"; LastJobID := 41 |})];
     Size := 2 |}.

Definition board : url.URL :=
  {| url.Scheme := "https"; url.Host := "job-board.example.org";
     url.Path := ""; url.RawQuery := ∅ |}.

Definition queue0 : HTTPJobQueue :=
  (NewHTTPJobQueue pool board "org" "docker" "builds.docker" "worker-1").1.

Definition ok (body : string) : DoResult :=
  (Some {| http.StatusCode := 200; http.RespBody := inr body |}, None).

Definition status (code : Z) : DoResult :=
  (Some {| http.StatusCode := code; http.RespBody := inr "" |}, None).

Definition refused : DoResult :=
  (None, Some (TransportError "connection refused")).

Definition world (q : HTTPJobQueue) (transport : list DoResult)
    (nextBackOffs : list (option Duration)) : World :=
  {| q := q; transport := transport; nextBackOffs := nextBackOffs;
     trace := []; nextChan := 0 |}.

Definition canceled : Context := {| Done := true |}.
Definition live : Context := {| Done := false |}.

End Sample.

(** ** The in-flight filter and the id parse *)

Lemma alreadyRunning_flag (strID : string) (prevJobs : list string) (flag : bool) :
  foldl (λ flag prevStrID, if String.eqb strID prevStrID then true else flag)
        flag prevJobs
  = flag || bool_decide (strID ∈ prevJobs).
Proof.
  revert flag. induction prevJobs as [|p prevJobs IH]; intros flag; cbn [foldl].
  - rewrite bool_decide_eq_false_2; [by rewrite orb_false_r | by apply not_elem_of_nil].
  - rewrite IH. destruct (String.eqb_spec strID p) as [->|Hne].
    + rewrite (bool_decide_eq_true_2 (p ∈ p :: prevJobs)); [|by left].
      by rewrite orb_true_r.
    + f_equal. apply bool_decide_ext. rewrite elem_of_cons.
      split; [by right | by intros [Heq|Hin]].
Qed.

Lemma alreadyRunning_decide (strID : string) (prevJobs : list string) :
  alreadyRunning strID prevJobs = bool_decide (strID ∈ prevJobs).
Proof. unfold alreadyRunning. by rewrite alreadyRunning_flag. Qed.

Lemma alreadyRunning_true (strID : string) (prevJobs : list string) :
  alreadyRunning strID prevJobs = true ↔ strID ∈ prevJobs.
Proof. rewrite alreadyRunning_decide. apply bool_decide_eq_true. Qed.

Lemma alreadyRunning_false (strID : string) (prevJobs : list string) :
  alreadyRunning strID prevJobs = false ↔ strID ∉ prevJobs.
Proof. rewrite alreadyRunning_decide. apply bool_decide_eq_false. Qed.

Lemma remaining_cons_in (strID : string) (respJobs prevJobs : list string) :
  strID ∈ prevJobs →
  remaining (strID :: respJobs) prevJobs = remaining respJobs prevJobs.
Proof. intros Hin. unfold remaining. rewrite filter_cons_False; auto. Qed.

Lemma remaining_cons_notin (strID : string) (respJobs prevJobs : list string) :
  strID ∉ prevJobs →
  remaining (strID :: respJobs) prevJobs = strID :: remaining respJobs prevJobs.
Proof. intros Hin. unfold remaining. by rewrite filter_cons_True. Qed.

Lemma remaining_nil_r (respJobs : list string) : remaining respJobs [] = respJobs.
Proof.
  induction respJobs as [|s l IH]; [done|].
  rewrite remaining_cons_notin; [by rewrite IH | apply not_elem_of_nil].
Qed.

(** The loop gives the same result on the response and on what remains of
    it after the filter. *)
Lemma filterJobIDs_remaining (respJobs prevJobs : list string) (jobIDs : list N) :
  filterJobIDs respJobs prevJobs jobIDs
  = filterJobIDs (remaining respJobs prevJobs) [] jobIDs.
Proof.
  revert jobIDs. induction respJobs as [|s l IH]; intros jobIDs; [done|].
  simpl. destruct (alreadyRunning s prevJobs) eqn:Hrun.
  - apply alreadyRunning_true in Hrun. rewrite remaining_cons_in; auto.
  - apply alreadyRunning_false in Hrun. rewrite remaining_cons_notin; auto.
    simpl. destruct (strconv.ParseUint s); [done|]. apply IH.
Qed.

Lemma filterJobIDs_all_parsed (l : list string) (jobIDs : list N) :
  Forall (λ s, is_Some (parsed s)) l →
  filterJobIDs l [] jobIDs = Ok (jobIDs ++ omap parsed l).
Proof.
  intros Hall. revert jobIDs.
  induction Hall as [|s l [id Hs] _ IH]; intros jobIDs; simpl.
  - by rewrite app_nil_r.
  - rewrite Hs. unfold parsed in Hs.
    destruct (strconv.ParseUint s) as [e|id']; [done|].
    injection Hs as ->. rewrite IH. by rewrite <- app_assoc.
Qed.

Lemma filterJobIDs_not_parsed (l : list string) (jobIDs : list N) :
  Exists (λ s, parsed s = None) l →
  ∃ strID e, strID ∈ l ∧ strconv.ParseUint strID = inl e ∧
    filterJobIDs l [] jobIDs
    = Err (Wrap (NumError "ParseUint" strID e) "failed to parse job ID").
Proof.
  revert jobIDs. induction l as [|s l IH]; intros jobIDs Hex.
  - by apply Exists_nil in Hex.
  - simpl. destruct (strconv.ParseUint s) as [e|id] eqn:Hs.
    + exists s, e. split; [by left|done].
    + apply Exists_cons in Hex as [Hhd|Htl].
      * unfold parsed in Hhd. by rewrite Hs in Hhd.
      * destruct (IH (jobIDs ++ [id]) Htl) as (t & e & Hin & Hp & Heq).
        exists t, e. split; [by right|done].
Qed.

Lemma parsed_all_or_not (l : list string) :
  Forall (λ s, is_Some (parsed s)) l ∨ Exists (λ s, parsed s = None) l.
Proof.
  induction l as [|s l [IH|IH]].
  - left. constructor.
  - destruct (parsed s) as [id|] eqn:Hs.
    + left. constructor; [by exists id | done].
    + right. by left.
  - right. by right.
Qed.

Section FetchJobID.
Context `{Externals}.

(** On a body that is read to its end the streaming decoder decodes its
    bytes. *)
Lemma decodeBody_read (resp : http.Response) (body : string) :
  http.RespBody resp = inr body →
  decodeBody resp = decodeFetchJobsResponse body.
Proof. intros Hb. unfold decodeBody. by rewrite Hb. Qed.

(** The id fetch on a response whose body decodes: one request goes out,
    the body is closed, and the result is that of the filter loop. *)
Lemma fetchJobID_decoded (ctx : Context) (w : World) (resp : http.Response)
    (rest : list DoResult) (body : string) (payload : httpFetchJobsResponse) :
  transport w = (Some resp, None) :: rest →
  http.RespBody resp = inr body →
  decodeFetchJobsResponse body = inr (Some payload) →
  fetchJobID ctx w
  = Returns
      match filterJobIDs (Jobs_resp payload) (inFlight (q w)) [] with
      | Err e => Err e
      | Ok jobIDs => firstJobID jobIDs
      end
      {| q := q w; transport := rest; nextBackOffs := nextBackOffs w;
         trace := trace w ++ [EvDo (sentRequest (q w)); EvClose];
         nextChan := nextChan w |}.
Proof.
  intros Ht Hb Hd.
  unfold fetchJobID, bind, getQ, Do, deferClose. rewrite Ht.
  cbn -[filterJobIDs decodeBody].
  rewrite (decodeBody_read resp body Hb), Hd. fold (inFlight (q w)).
  destruct (filterJobIDs _ _ _); cbn; unfold emitW; cbn;
    by rewrite <- app_assoc.
Qed.

End FetchJobID.

Section FetchJobIDResult.
Context `{Externals}.

(** C1, as amended.  On a response that decodes to the candidates [jobs],
    [fetchJobID] returns; an id it returns is the value of a candidate that
    is not in the in-flight list; when no candidate remains after the
    filter (also on an empty response) the result is the "no jobs
    available" error; when candidates remain and every one of them parses
    as an unsigned 64-bit decimal, the result is the first of them in
    response order; when one of them does not parse, the result is a parse
    error.  With ["42"] in flight, the response ["42"; "43"] gives 43 and
    the response ["42"] gives the "no jobs available" error. *)
Theorem fetchJobID_first_remaining (ctx : Context) (w : World)
    (resp : http.Response) (rest : list DoResult) (body : string)
    (jobs : list string) :
  transport w = (Some resp, None) :: rest →
  http.RespBody resp = inr body →
  decodeFetchJobsResponse body = inr (Some {| Jobs_resp := jobs |}) →
  ∃ r, resultOf (fetchJobID ctx w) = Some r ∧
    (∀ id, r = Ok id →
       ∃ strID, strID ∈ jobs ∧ (strID ∉ inFlight (q w)) ∧ parsed strID = Some id) ∧
    (remaining jobs (inFlight (q w)) = [] → r = Err httpJobQueueNoJobsErr) ∧
    (∀ strID others,
       remaining jobs (inFlight (q w)) = strID :: others →
       Forall (λ s, is_Some (parsed s)) (strID :: others) →
       ∃ id, parsed strID = Some id ∧ r = Ok id) ∧
    (Exists (λ s, parsed s = None) (remaining jobs (inFlight (q w))) →
       ∃ e, r = Err e ∧ isParseError e) ∧
    (inFlight (q w) = ["42"] → jobs = ["42"; "43"] → r = Ok 43%N) ∧
    (inFlight (q w) = ["42"] → jobs = ["42"] → r = Err httpJobQueueNoJobsErr).
Proof.
  intros Ht Hb Hd.
  rewrite (fetchJobID_decoded ctx w resp rest body _ Ht Hb Hd). cbn [resultOf Jobs_resp].
  eexists; split; [reflexivity|].
  rewrite filterJobIDs_remaining.
  set (rem := remaining jobs (inFlight (q w))).
  assert (Hrem : ∀ s, s ∈ rem → s ∈ jobs ∧ s ∉ inFlight (q w)).
  { intros s Hs. unfold rem, remaining in Hs. by apply list_elem_of_filter in Hs as [? ?]. }
  destruct (parsed_all_or_not rem) as [Hall|Hex].
  - rewrite (filterJobIDs_all_parsed rem [] Hall). cbn [app].
    repeat split.
    + intros id Hid. destruct rem as [|s others] eqn:Erem; [done|].
      apply Forall_cons in Hall as [[id' Hs] _]. cbn in Hid. rewrite Hs in Hid.
      cbn in Hid. injection Hid as ->.
      destruct (Hrem s) as [? ?]; [by left|]. by exists s.
    + intros Hnil. unfold rem in *. by rewrite Hnil.
    + intros s others Heq _. unfold rem in *. rewrite Heq in *.
      apply Forall_cons in Hall as [[id Hs] _]. exists id. split; [done|].
      cbn. by rewrite Hs.
    + intros Hex. exfalso. apply Exists_exists in Hex as (s & Hs & Hnone).
      rewrite Forall_forall in Hall. destruct (Hall s Hs) as [id Hid]. congruence.
    + intros Hin ->. unfold rem. rewrite Hin. by vm_compute.
    + intros Hin ->. unfold rem. rewrite Hin. by vm_compute.
  - destruct (filterJobIDs_not_parsed rem [] Hex) as (t & e & Hin & Hp & Heq).
    rewrite Heq. repeat split.
    + intros id Hid. discriminate.
    + intros Hnil. rewrite Hnil in Hin. by apply elem_of_nil in Hin.
    + intros s others Heq' Hall. exfalso.
      apply Exists_exists in Hex as (s' & Hs' & Hnone).
      rewrite <- Heq' in Hall. rewrite Forall_forall in Hall.
      destruct (Hall s' Hs') as [id Hid]. congruence.
    + intros _. eexists. split; [reflexivity|]. by exists t, e.
    + intros Hfl ->. exfalso. unfold rem in Hex. rewrite Hfl in Hex.
      apply Exists_exists in Hex as (s' & Hs' & Hnone).
      vm_compute in Hs'. apply list_elem_of_In in Hs'. cbn in Hs'.
      destruct Hs' as [<-|[]]. by vm_compute in Hnone.
    + intros Hfl ->. exfalso. unfold rem in Hex. rewrite Hfl in Hex.
      apply Exists_exists in Hex as (s' & Hs' & Hnone).
      vm_compute in Hs'. by apply elem_of_nil in Hs'.
Qed.

End FetchJobIDResult.

(** The theorem at the pool of [Sample], where processor 7 is processing job
    42, and a job board that answers ["42"; "43"]. *)
Lemma fetchJobID_first_remaining_witness :
  ∃ r, resultOf (@fetchJobID (Sample.jobBoard ["42"; "43"]) Sample.live
                   (Sample.world Sample.queue0 [Sample.ok "body"] [])) = Some r
       ∧ r = Ok 43%N.
Proof.
  destruct (@fetchJobID_first_remaining (Sample.jobBoard ["42"; "43"])
              Sample.live (Sample.world Sample.queue0 [Sample.ok "body"] [])
              _ [] "body" ["42"; "43"] eq_refl eq_refl eq_refl)
    as (r & Hr & _ & _ & _ & _ & H43 & _).
  exists r. split; [exact Hr|]. apply H43; reflexivity.
Defined.

(** C1 as stated fails: with ["42"] in flight and the response ["43"; "x"],
    both candidates remain after the filter and the first of them is 43,
    yet the call returns the parse error of "x". *)
Lemma fetchJobID_first_remaining_counterexample :
  let w := Sample.world Sample.queue0 [Sample.ok "body"] [] in
  inFlight (q w) = ["42"] ∧
  remaining ["43"; "x"] (inFlight (q w)) = ["43"; "x"] ∧
  parsed "43" = Some 43%N ∧
  resultOf (@fetchJobID (Sample.jobBoard ["43"; "x"]) Sample.live w)
  = Some (Err (Wrap (NumError "ParseUint" "x" strconv.ErrSyntax)
                    "failed to parse job ID")) ∧
  resultOf (@fetchJobID (Sample.jobBoard ["43"; "x"]) Sample.live w)
  ≠ Some (Ok 43%N).
Proof. repeat split; try by vm_compute. Qed.

(** A candidate that is in the in-flight list has no part in the result of
    the loop. *)
Lemma filterJobIDs_skips (before after prevJobs : list string) (strID : string)
    (jobIDs : list N) :
  strID ∈ prevJobs →
  filterJobIDs (before ++ strID :: after) prevJobs jobIDs
  = filterJobIDs (before ++ after) prevJobs jobIDs.
Proof.
  intros Hin.
  rewrite (filterJobIDs_remaining (before ++ strID :: after)).
  rewrite (filterJobIDs_remaining (before ++ after)).
  unfold remaining. rewrite !filter_app. by rewrite filter_cons_False; auto.
Qed.

Lemma parseDigits_leading_zero (s : string) :
  strconv.parseDigits (String "0" s) 0 = strconv.parseDigits s 0.
Proof. reflexivity. Qed.

Lemma string_cons_neq (c : ascii) (s : string) : String c s ≠ s.
Proof.
  intros Heq. apply (f_equal String.length) in Heq. cbn in Heq. lia.
Qed.

(** C8.  The filter decides by string equality, in the helper, in the loop
    and in the call: the flag of the inner loop is set exactly when some
    in-flight id is the same string as the candidate; the outer loop gives
    the result it gives on the candidates that are no string of the
    in-flight list; and on a response with one candidate [fetchJobID]
    returns the "no jobs available" error when the candidate is a string of
    the in-flight list, and its parse otherwise.  Numeric equality does not
    count: a candidate with one more leading zero than an in-flight id
    parses to the same number and is not filtered out, so that the call
    returns the id of a running job; with job 42 in flight the response
    ["042"] makes [fetchJobID] return 42. *)
Theorem alreadyRunning_string_equality :
  (∀ strID prevJobs, alreadyRunning strID prevJobs = true ↔ strID ∈ prevJobs) ∧
  (∀ c digits,
     let prevStrID := String c digits in
     let strID := String "0" prevStrID in
     strconv.ParseUint strID = strconv.ParseUint prevStrID ∧
     alreadyRunning strID [prevStrID] = false ∧
     remaining [strID] [prevStrID] = [strID]) ∧
  (inFlight Sample.queue0 = ["42"] ∧
   parsed "042" = parsed "42" ∧
   resultOf (@fetchJobID (Sample.jobBoard ["042"]) Sample.live
               (Sample.world Sample.queue0 [Sample.ok "body"] []))
   = Some (Ok 42%N)) ∧
  (∀ respJobs prevJobs jobIDs,
     filterJobIDs respJobs prevJobs jobIDs
     = filterJobIDs (filter (λ strID, strID ∉ prevJobs) respJobs) [] jobIDs) ∧
  (∀ (E : Externals) ctx w resp rest body strID,
     transport w = (Some resp, None) :: rest →
     http.RespBody resp = inr body →
     @decodeFetchJobsResponse E body = inr (Some {| Jobs_resp := [strID] |}) →
     resultOf (@fetchJobID E ctx w)
     = Some (if bool_decide (strID ∈ inFlight (q w))
             then Err httpJobQueueNoJobsErr
             else match strconv.ParseUint strID with
                  | inr id => Ok id
                  | inl e =>
                      Err (Wrap (NumError "ParseUint" strID e)
                                "failed to parse job ID")
                  end)) ∧
  (∀ (E : Externals) ctx w resp rest body c digits id,
     let prevStrID := String c digits in
     let strID := String "0" prevStrID in
     transport w = (Some resp, None) :: rest →
     http.RespBody resp = inr body →
     @decodeFetchJobsResponse E body = inr (Some {| Jobs_resp := [strID] |}) →
     prevStrID ∈ inFlight (q w) →
     strconv.ParseUint prevStrID = inr id →
     strID ∉ inFlight (q w) →
     resultOf (@fetchJobID E ctx w) = Some (Ok id)).
Proof.
  assert (Hone : ∀ (E : Externals) ctx w resp rest body strID,
     transport w = (Some resp, None) :: rest →
     http.RespBody resp = inr body →
     @decodeFetchJobsResponse E body = inr (Some {| Jobs_resp := [strID] |}) →
     resultOf (@fetchJobID E ctx w)
     = Some (if bool_decide (strID ∈ inFlight (q w))
             then Err httpJobQueueNoJobsErr
             else match strconv.ParseUint strID with
                  | inr id => Ok id
                  | inl e =>
                      Err (Wrap (NumError "ParseUint" strID e)
                                "failed to parse job ID")
                  end)).
  { intros E ctx w resp rest body strID Ht Hb Hd.
    rewrite (fetchJobID_decoded ctx w resp rest body _ Ht Hb Hd).
    cbn [resultOf Jobs_resp filterJobIDs]. rewrite alreadyRunning_decide.
    destruct (bool_decide (strID ∈ inFlight (q w))); [done|].
    by destruct (strconv.ParseUint strID). }
  split; [exact alreadyRunning_true|]. split; [|split; [|split; [|split]]].
  - intros c digits prevStrID strID.
    assert (Hne : strID ∉ [prevStrID]).
    { intros Hin. apply list_elem_of_singleton in Hin. by apply string_cons_neq in Hin. }
    split; [|split].
    + unfold strID, prevStrID, strconv.ParseUint. apply parseDigits_leading_zero.
    + by apply alreadyRunning_false.
    + by rewrite remaining_cons_notin.
  - by vm_compute.
  - intros respJobs prevJobs jobIDs. apply filterJobIDs_remaining.
  - exact Hone.
  - intros E ctx w resp rest body c digits id prevStrID strID Ht Hb Hd _ Hp Hnot.
    rewrite (Hone E ctx w resp rest body strID Ht Hb Hd).
    rewrite bool_decide_eq_false_2 by done.
    replace (strconv.ParseUint strID) with (strconv.ParseUint prevStrID).
    + by rewrite Hp.
    + unfold strID, prevStrID, strconv.ParseUint.
      symmetry. apply parseDigits_leading_zero.
Qed.

(** C8 at the pool of [Sample], where job 42 is in flight, and the response
    ["042"]: the candidate is no string of the in-flight list, parses to 42
    and is returned. *)
Lemma alreadyRunning_string_equality_witness :
  resultOf (@fetchJobID (Sample.jobBoard ["042"]) Sample.live
              (Sample.world Sample.queue0 [Sample.ok "body"] []))
  = Some (Ok 42%N).
Proof.
  destruct alreadyRunning_string_equality as (_ & _ & _ & _ & _ & Hzero).
  apply (Hzero (Sample.jobBoard ["042"]) Sample.live
           (Sample.world Sample.queue0 [Sample.ok "body"] [])
           {| http.StatusCode := 200; http.RespBody := inr "body" |} [] "body"
           "4"%char "2" 42%N); try reflexivity.
  - vm_compute. apply list_elem_of_here.
  - vm_compute. intros Hin. apply list_elem_of_In in Hin. cbn in Hin.
    destruct Hin as [Heq|[]]. discriminate Heq.
Defined.

Section FetchJobIDParse.
Context `{Externals}.

Lemma fetchJobID_result (ctx : Context) (w : World) (resp : http.Response)
    (rest : list DoResult) (body : string) (jobs : list string) :
  transport w = (Some resp, None) :: rest →
  http.RespBody resp = inr body →
  decodeFetchJobsResponse body = inr (Some {| Jobs_resp := jobs |}) →
  resultOf (fetchJobID ctx w)
  = Some match filterJobIDs (remaining jobs (inFlight (q w))) [] [] with
         | Err e => Err e
         | Ok jobIDs => firstJobID jobIDs
         end.
Proof.
  intros Ht Hb Hd.
  rewrite (fetchJobID_decoded ctx w resp rest body _ Ht Hb Hd).
  cbn [resultOf Jobs_resp]. by rewrite filterJobIDs_remaining.
Qed.

(** C10.  On a response that decodes to the candidates [jobs]: if some
    candidate outside the in-flight list does not parse as an unsigned
    64-bit decimal, the call returns a parse error, wherever the candidate
    stands in the response, also behind one that parsed; if every candidate
    outside the in-flight list parses, the call returns no parse error,
    whatever the candidates in the in-flight list look like; and the loop
    gives the same result with and without a candidate that is in the
    in-flight list. *)
Theorem fetchJobID_parse_error (ctx : Context) (w : World)
    (resp : http.Response) (rest : list DoResult) (body : string)
    (jobs : list string) :
  transport w = (Some resp, None) :: rest →
  http.RespBody resp = inr body →
  decodeFetchJobsResponse body = inr (Some {| Jobs_resp := jobs |}) →
  (Exists (λ strID, (strID ∉ inFlight (q w)) ∧ parsed strID = None) jobs →
     ∃ e, resultOf (fetchJobID ctx w) = Some (Err e) ∧ isParseError e) ∧
  (∀ first id bad others,
     jobs = first :: bad :: others →
     first ∉ inFlight (q w) → parsed first = Some id →
     bad ∉ inFlight (q w) → parsed bad = None →
     ∃ e, resultOf (fetchJobID ctx w) = Some (Err e) ∧ isParseError e) ∧
  (Forall (λ strID, strID ∉ inFlight (q w) → is_Some (parsed strID)) jobs →
     ∃ r, resultOf (fetchJobID ctx w) = Some r ∧ ∀ e, r = Err e → ¬ isParseError e) ∧
  (∀ before strID after prevJobs jobIDs,
     strID ∈ prevJobs →
     filterJobIDs (before ++ strID :: after) prevJobs jobIDs
     = filterJobIDs (before ++ after) prevJobs jobIDs).
Proof.
  intros Ht Hb Hd.
  pose proof (fetchJobID_result ctx w resp rest body jobs Ht Hb Hd) as Hres.
  assert (Hbad : Exists (λ strID, (strID ∉ inFlight (q w)) ∧ parsed strID = None) jobs →
     ∃ e, resultOf (fetchJobID ctx w) = Some (Err e) ∧ isParseError e).
  { intros Hex. rewrite Hres.
    assert (Hex' : Exists (λ s, parsed s = None) (remaining jobs (inFlight (q w)))).
    { apply Exists_exists in Hex as (s & Hs & Hnot & Hnone).
      apply Exists_exists. exists s. split; [|done].
      unfold remaining. by apply list_elem_of_filter. }
    destruct (filterJobIDs_not_parsed _ [] Hex') as (t & e & _ & Hp & Heq).
    rewrite Heq. eexists. split; [reflexivity|]. by exists t, e. }
  split; [exact Hbad|]. split; [|split].
  - intros first id bad others -> _ _ Hnot Hnone. apply Hbad.
    apply Exists_cons. right. apply Exists_cons. by left.
  - intros Hall. rewrite Hres. eexists. split; [reflexivity|].
    assert (Hall' : Forall (λ s, is_Some (parsed s)) (remaining jobs (inFlight (q w)))).
    { apply Forall_forall. intros s Hs. unfold remaining in Hs.
      apply list_elem_of_filter in Hs as [Hnot Hin].
      rewrite Forall_forall in Hall. by apply Hall. }
    rewrite (filterJobIDs_all_parsed _ [] Hall'). cbn [app].
    intros e He (t & e' & -> & _).
    destruct (omap parsed _); discriminate.
  - intros. by apply filterJobIDs_skips.
Qed.

End FetchJobIDParse.

(** The theorem at a job board that answers ["43"; "x"] while job 42 is in
    flight: the parse error of "x" is returned although "43" comes first. *)
Lemma fetchJobID_parse_error_witness :
  ∃ e, resultOf (@fetchJobID (Sample.jobBoard ["43"; "x"]) Sample.live
                   (Sample.world Sample.queue0 [Sample.ok "body"] []))
       = Some (Err e) ∧ isParseError e.
Proof.
  destruct (@fetchJobID_parse_error (Sample.jobBoard ["43"; "x"])
              Sample.live (Sample.world Sample.queue0 [Sample.ok "body"] [])
              _ [] "body" ["43"; "x"] eq_refl eq_refl eq_refl)
    as (_ & Hsecond & _).
  apply (Hsecond "43" 43%N "x" []); try reflexivity.
  - vm_compute. intros Hin. apply list_elem_of_In in Hin. cbn in Hin.
    destruct Hin as [Heq|[]]. discriminate Heq.
  - vm_compute. intros Hin. apply list_elem_of_In in Hin. cbn in Hin.
    destruct Hin as [Heq|[]]. discriminate Heq.
Defined.

(** ** The request of the id fetch *)

Lemma lookup_Add (key value : string) (v : url.Values) (k : string) :
  url.Add key value v !! k
  = if decide (key = k) then Some (v !!! key ++ [value]) else v !! k.
Proof. unfold url.Add. by rewrite lookup_insert. Qed.

Lemma lookup_total_Add (key value : string) (v : url.Values) (k : string) :
  url.Add key value v !!! k
  = if decide (key = k) then v !!! key ++ [value] else v !!! k.
Proof.
  rewrite !lookup_total_alt, lookup_Add. by case_decide.
Qed.

Lemma Each_collectProcessing (l : list (Z * Processor)) (acc : httpFetchJobsRequest) :
  foldl (λ acc ip, collectProcessing ip.1 ip.2 acc) acc l
  = {| Jobs_req := Jobs_req acc
         ++ ((λ ip, strconv.FormatUint (LastJobID ip.2)) <$> filter isProcessing l) |}.
Proof.
  revert acc. induction l as [|ip l IH]; intros acc; cbn [foldl].
  - cbn. rewrite app_nil_r. by destruct acc.
  - rewrite IH. unfold collectProcessing.
    destruct (String.eqb_spec (CurrentStatus ip.2) "processing") as [Hp|Hp].
    + rewrite filter_cons_True by done. cbn. by rewrite <- app_assoc.
    + by rewrite filter_cons_False.
Qed.

Lemma inFlight_processing (q : HTTPJobQueue) :
  inFlight q
  = (λ ip, strconv.FormatUint (LastJobID ip.2))
      <$> filter isProcessing (visited (processors q)).
Proof. unfold inFlight, Each. by rewrite Each_collectProcessing. Qed.

Lemma sentRequest_Body (q : HTTPJobQueue) :
  http.Body (sentRequest q) = Some {| Jobs_req := inFlight q |}.
Proof.
  unfold sentRequest, inFlight. cbn.
  by destruct (Each (processors q) collectProcessing _).
Qed.

Section FetchJobIDRequest.
Context `{Externals}.

(** Whatever the transport answers, the id fetch sends one request. *)
Lemma fetchJobID_one_request (ctx : Context) (w : World) :
  requests (trace (worldOf (fetchJobID ctx w)))
  = requests (trace w) ++ [sentRequest (q w)].
Proof.
  unfold fetchJobID, bind, getQ, Do, deferClose.
  fold (sentRequest (q w)).
  destruct (transport w) as [|[[resp|] [err|]] rest]; cbn;
    try (unfold requests; rewrite omap_app; done).
  destruct (decodeBody resp) as [err|[payload|]];
    try (cbn; unfold requests; rewrite <- app_assoc, omap_app; done).
  destruct (filterJobIDs _ _ _);
    cbn; unfold requests; rewrite <- app_assoc, omap_app; done.
Qed.

End FetchJobIDRequest.

Section FetchJobIDSends.
Context `{Externals}.

(** C5.  In every state of the pool the id fetch sends one request, a POST
    to the job board's scheme and host with the path /jobs; its query is
    that of the job-board URL with the values count=1, capacity=(the size
    of the pool, in decimal) and queue=(the queue name) added; its headers
    are Content-Type, Travis-Site and From; and its body lists the decimal
    last job ids of the processors whose status is "processing", in the
    order the pool visits them, and no other id. *)
Theorem fetchJobID_request (ctx : Context) (w : World) :
  let req := sentRequest (q w) in
  let base := url.RawQuery (jobBoardURL (q w)) in
  let query := url.RawQuery (http.URL req) in
  requests (trace (worldOf (fetchJobID ctx w))) = requests (trace w) ++ [req] ∧
  http.Method req = "POST" ∧
  url.Scheme (http.URL req) = url.Scheme (jobBoardURL (q w)) ∧
  url.Host (http.URL req) = url.Host (jobBoardURL (q w)) ∧
  url.Path (http.URL req) = "/jobs" ∧
  query !!! "count" = base !!! "count" ++ ["1"] ∧
  query !!! "capacity"
    = base !!! "capacity" ++ [strconv.Itoa (Size (processors (q w)))] ∧
  query !!! "queue" = base !!! "queue" ++ [queue (q w)] ∧
  (∀ key, key ≠ "count" → key ≠ "capacity" → key ≠ "queue" →
     query !! key = base !! key) ∧
  http.Header_ req !! "Content-Type" = Some ["application/json"] ∧
  http.Header_ req !! "Travis-Site" = Some [site (q w)] ∧
  http.Header_ req !! "From" = Some [workerID (q w)] ∧
  (∀ key, key ≠ "Content-Type" → key ≠ "Travis-Site" → key ≠ "From" →
     http.Header_ req !! key = None) ∧
  http.Body req = Some {| Jobs_req := inFlight (q w) |} ∧
  inFlight (q w)
    = (λ ip, strconv.FormatUint (LastJobID ip.2))
        <$> filter isProcessing (visited (processors (q w))) ∧
  (∀ strID, strID ∈ inFlight (q w) ↔
     ∃ i p, (i, p) ∈ visited (processors (q w)) ∧
            CurrentStatus p = "processing" ∧
            strID = strconv.FormatUint (LastJobID p)).
Proof.
  intros req base query.
  split; [apply fetchJobID_one_request|].
  do 4 (split; [reflexivity|]).
  unfold query, req, sentRequest, fetchJobIDRequest. cbn -[url.Add].
  fold base.
  split; [by rewrite !lookup_total_Add; repeat case_decide|].
  split; [by rewrite !lookup_total_Add; repeat case_decide|].
  split; [by rewrite !lookup_total_Add; repeat case_decide|].
  split.
  { intros key H1 H2 H3. rewrite !lookup_Add. by repeat case_decide. }
  split; [by rewrite !lookup_Add; repeat case_decide|].
  split; [by rewrite !lookup_Add; repeat case_decide|].
  split; [by rewrite !lookup_Add; repeat case_decide|].
  split.
  { intros key H1 H2 H3. rewrite !lookup_Add. by repeat case_decide. }
  split; [apply sentRequest_Body|].
  split; [apply inFlight_processing|].
  intros strID. rewrite inFlight_processing, list_elem_of_fmap. split.
  - intros ([i p] & -> & Hin). apply list_elem_of_filter in Hin as [Hp Hin].
    by exists i, p.
  - intros (i & p & Hin & Hp & ->). exists (i, p). split; [done|].
    by apply list_elem_of_filter.
Qed.

End FetchJobIDSends.

(** The theorem at the pool of [Sample]: of the two processors only number
    7 is processing, and the body lists its job 42 alone. *)
Lemma fetchJobID_request_witness :
  let w := Sample.world Sample.queue0 [] [] in
  requests (trace (worldOf (@fetchJobID (Sample.jobBoard []) Sample.live w)))
  = [sentRequest Sample.queue0] ∧
  http.Body (sentRequest Sample.queue0) = Some {| Jobs_req := ["42"] |} ∧
  url.RawQuery (http.URL (sentRequest Sample.queue0)) !! "capacity" = Some ["2"] ∧
  url.RawQuery (http.URL (sentRequest Sample.queue0)) !! "color" = None.
Proof.
  intros w.
  destruct (@fetchJobID_request (Sample.jobBoard []) Sample.live w)
    as (Hreq & _ & _ & _ & _ & _ & _ & _ & Hother & _ & _ & _ & _ & Hbody & _).
  split; [exact Hreq|]. split; [exact Hbody|]. split; [by vm_compute|].
  rewrite Hother; [reflexivity|discriminate..].
Defined.

(** ** Effects of the two fetches *)

(** The two fetches leave the queue object alone, send nothing on a channel
    and start no goroutine. *)
Lemma quiet_ret {A} (a : A) : quiet (ret a).
Proof. by intros w. Qed.

Lemma quiet_panic {A} : quiet (@panic A).
Proof. by intros w. Qed.

Lemma quiet_bind {A B} (m : M A) (k : A → M B) :
  quiet m → (∀ a, quiet (k a)) → quiet (bind m k).
Proof.
  intros Hm Hk w. unfold bind. specialize (Hm w).
  destruct (m w) as [a w'|w']; cbn in *; [|done].
  destruct (Hk a w') as (H1 & H2 & H3 & H4). destruct Hm as (G1 & G2 & G3 & G4).
  repeat split; congruence.
Qed.

Lemma quiet_getQ : quiet getQ.
Proof. by intros w. Qed.

Lemma sends_snoc (t : list Event) (e : Event) :
  sends (t ++ [e])
  = sends t ++ match e with EvSend c job => [(c, job)] | _ => [] end.
Proof. unfold sends. rewrite omap_app. by destruct e. Qed.

Lemma loopStarts_snoc (t : list Event) (e : Event) :
  loopStarts (t ++ [e])
  = loopStarts t ++ match e with EvGo c => [c] | _ => [] end.
Proof. unfold loopStarts. rewrite omap_app. by destruct e. Qed.

Lemma quiet_emit (e : Event) :
  match e with EvSend _ _ | EvGo _ => False | _ => True end → quiet (emit e).
Proof.
  intros He w. cbn. rewrite sends_snoc, loopStarts_snoc.
  destruct e; try done; by rewrite !app_nil_r.
Qed.

Lemma quiet_deferClose {A} (m : M A) : quiet m → quiet (deferClose m).
Proof.
  intros Hm w. unfold deferClose. specialize (Hm w).
  destruct (m w) as [a w'|w']; cbn in *;
    rewrite sends_snoc, loopStarts_snoc, !app_nil_r; done.
Qed.

Lemma quiet_Do (req : JobsRequest) : quiet (Do req).
Proof.
  intros w. unfold Do. destruct (transport w) as [|r rest]; cbn;
    rewrite sends_snoc, loopStarts_snoc, !app_nil_r; done.
Qed.

Lemma quiet_NextBackOff (b : backoff.ExponentialBackOff) : quiet (NextBackOff b).
Proof. by intros w. Qed.

Lemma quiet_fetchJobAttempt (req : JobsRequest) : quiet (fetchJobAttempt req).
Proof.
  apply quiet_bind; [apply quiet_Do|]. intros [[resp|] err]; [|apply quiet_ret].
  destruct (negb _); [|apply quiet_ret].
  apply quiet_bind; [by apply quiet_emit|]. intros _. apply quiet_ret.
Qed.

Lemma quiet_retryLoop {X} (fuel : nat) (operation : M (X * option error))
    (b : backoff.ExponentialBackOff) :
  quiet operation → quiet (retryLoop fuel operation b).
Proof.
  intros Hop. induction fuel as [|fuel IH]; cbn [retryLoop].
  - apply quiet_bind; [done|]. intros r. destruct r.2; [|apply quiet_ret].
    apply quiet_bind; [apply quiet_NextBackOff|]. intros [d|]; apply quiet_ret.
  - apply quiet_bind; [done|]. intros r. destruct r.2; [|apply quiet_ret].
    apply quiet_bind; [apply quiet_NextBackOff|]. intros [d|]; [|apply quiet_ret].
    apply quiet_bind; [by apply quiet_emit|]. intros _. apply IH.
Qed.

Lemma quiet_Retry {X} (operation : M (X * option error))
    (b : backoff.ExponentialBackOff) :
  quiet operation → quiet (Retry operation b).
Proof. intros Hop w. unfold Retry. by apply quiet_retryLoop. Qed.

Section QuietFetches.
Context `{Externals}.

Lemma quiet_fetchJobID (ctx : Context) : quiet (fetchJobID ctx).
Proof.
  apply quiet_bind; [apply quiet_getQ|]. intros q0.
  apply quiet_bind; [apply quiet_Do|]. intros [[resp|] [err|]];
    try apply quiet_ret; try apply quiet_panic.
  apply quiet_deferClose.
  destruct (decodeBody resp) as [err|[payload|]];
    try apply quiet_ret; try apply quiet_panic.
  destruct (filterJobIDs _ _ _); apply quiet_ret.
Qed.

Lemma quiet_mergeStartAttributes q0 payload startAttrs :
  quiet (mergeStartAttributes q0 payload startAttrs).
Proof.
  unfold mergeStartAttributes.
  destruct startAttrs as [sa|]; [|apply quiet_panic].
  destruct (Data_sa sa) as [data|]; [|apply quiet_panic].
  destruct (Config data), (Data payload); try apply quiet_panic. apply quiet_ret.
Qed.

Lemma quiet_fetchJob (ctx : Context) (id : N) : quiet (fetchJob ctx id).
Proof.
  apply quiet_bind; [apply quiet_getQ|]. intros q0.
  apply quiet_bind; [apply quiet_Retry, quiet_fetchJobAttempt|].
  intros [[resp|] [err|]]; try apply quiet_ret; try apply quiet_panic.
  apply quiet_deferClose. unfold readJob.
  destruct (http.RespBody resp) as [err|body]; [apply quiet_ret|].
  destruct (unmarshalPayload body) as [err|payload]; [apply quiet_ret|].
  destruct (unmarshalStartAttrs body) as [err|startAttrs]; [apply quiet_ret|].
  destruct (NewJson body) as [err|raw]; [apply quiet_ret|].
  apply quiet_bind; [apply quiet_mergeStartAttributes|]. intros sa. apply quiet_ret.
Qed.

End QuietFetches.

(** ** One poll attempt *)

Section PollForJobs.
Context `{Externals}.

(** The attempt in terms of the two fetches it makes. *)
Lemma pollForJobs_unfold_ready (ctx : Context) (c : Chan) (w : World) :
  pollForJobs ctx ReadyFirst c w
  = match fetchJobID ctx w with
    | Panics w1 => Panics w1
    | Returns (Err _) w1 => Returns httpPollStateSleep w1
    | Returns (Ok jobID) w1 =>
        match fetchJob ctx jobID w1 with
        | Panics w2 => Panics w2
        | Returns (Err _) w2 =>
            Returns httpPollStateSleep (emitW (EvSend c None) w2)
        | Returns (Ok buildJob) w2 =>
            let w3 := emitW (EvSend c (Some buildJob)) w2 in
            if Done ctx
            then Returns httpPollStateBreak
                   {| q := set_buildJobChan None (q w3);
                      transport := transport w3;
                      nextBackOffs := nextBackOffs w3;
                      trace := trace w3; nextChan := nextChan w3 |}
            else Returns httpPollStateSleep w3
        end
    end.
Proof.
  unfold pollForJobs, bind.
  destruct (fetchJobID ctx w) as [[jobID|e] w1|w1]; try done.
  destruct (fetchJob ctx jobID w1) as [[buildJob|e] w2|w2]; try done.
  cbn. by destruct (Done ctx).
Qed.

(** C7.  When the id fetch succeeds and the detail fetch fails, the attempt
    sends one value on the output channel, the nil job, and returns Sleep,
    whatever the state of the context; the queue object is as before.  The
    failure does not come out of the public operations as an error: the
    attempt returns a poll state, and [Jobs] and [Cleanup] return no
    error. *)
Theorem pollForJobs_nil_job (ctx : Context) (c : Chan) (w : World)
    (jobID : N) (e : error) :
  resultOf (fetchJobID ctx w) = Some (Ok jobID) →
  resultOf (fetchJob ctx jobID (worldOf (fetchJobID ctx w))) = Some (Err e) →
  let o := pollForJobs ctx ReadyFirst c w in
  resultOf o = Some httpPollStateSleep ∧
  sends (trace (worldOf o)) = sends (trace w) ++ [(c, None)] ∧
  trace (worldOf o)
    = trace (worldOf (fetchJob ctx jobID (worldOf (fetchJobID ctx w))))
        ++ [EvSend c None] ∧
  q (worldOf o) = q w ∧
  (∀ ctx' ready w', ∃ c', resultOf (Jobs ctx' ready w') = Some (c', None)) ∧
  (∀ w', resultOf (Cleanup w') = Some None).
Proof.
  intros Hid Hjob o. unfold o. rewrite pollForJobs_unfold_ready.
  pose proof (quiet_fetchJobID ctx w) as (Q1 & S1 & _).
  destruct (fetchJobID ctx w) as [[id|e1] w1|w1]; try done.
  cbn in Hid. injection Hid as ->. cbn [worldOf] in *.
  pose proof (quiet_fetchJob ctx jobID w1) as (Q2 & S2 & _).
  destruct (fetchJob ctx jobID w1) as [[job|e2] w2|w2]; try done.
  cbn [worldOf resultOf] in *.
  split; [done|]. split.
  { cbn. rewrite sends_snoc. congruence. }
  split; [done|]. split; [cbn; congruence|]. split.
  - intros ctx' ready w'. unfold Jobs, bind, getQ.
    destruct (buildJobChan (q w')) as [c'|]; eexists; reflexivity.
  - done.
Qed.

(** C2, as amended.  In an attempt in which the readiness signal fired:
    when the job was fetched and delivered, the attempt looks at the
    context, and if it is canceled clears [buildJobChan] and returns Break,
    otherwise returns Sleep; when the id fetch fails, and when the detail
    fetch fails and the nil job has been delivered, the attempt returns
    Sleep without looking at the context and leaves [buildJobChan] as it
    was. *)
Theorem pollForJobs_ready (ctx : Context) (c : Chan) (w : World) :
  let o := pollForJobs ctx ReadyFirst c w in
  let w1 := worldOf (fetchJobID ctx w) in
  (∀ e, resultOf (fetchJobID ctx w) = Some (Err e) →
     resultOf o = Some httpPollStateSleep ∧ q (worldOf o) = q w ∧
     sends (trace (worldOf o)) = sends (trace w)) ∧
  (∀ jobID e,
     resultOf (fetchJobID ctx w) = Some (Ok jobID) →
     resultOf (fetchJob ctx jobID w1) = Some (Err e) →
     resultOf o = Some httpPollStateSleep ∧ q (worldOf o) = q w ∧
     sends (trace (worldOf o)) = sends (trace w) ++ [(c, None)]) ∧
  (∀ jobID buildJob,
     resultOf (fetchJobID ctx w) = Some (Ok jobID) →
     resultOf (fetchJob ctx jobID w1) = Some (Ok buildJob) →
     sends (trace (worldOf o)) = sends (trace w) ++ [(c, Some buildJob)] ∧
     if Done ctx
     then resultOf o = Some httpPollStateBreak ∧
          q (worldOf o) = set_buildJobChan None (q w) ∧
          buildJobChan (q (worldOf o)) = None
     else resultOf o = Some httpPollStateSleep ∧ q (worldOf o) = q w).
Proof.
  intros o w1. unfold o, w1. rewrite pollForJobs_unfold_ready.
  pose proof (quiet_fetchJobID ctx w) as (Q1 & S1 & _).
  destruct (fetchJobID ctx w) as [[id|e1] w1'|w1']; cbn [worldOf resultOf] in *.
  - pose proof (quiet_fetchJob ctx id w1') as (Q2 & S2 & _).
    split; [done|]. split.
    + intros jobID e Hid Hjob. injection Hid as <-.
      destruct (fetchJob ctx id w1') as [[job|e2] w2|w2]; try done.
      cbn [worldOf resultOf] in *. cbn. rewrite sends_snoc.
      repeat split; congruence.
    + intros jobID job Hid Hjob. injection Hid as <-.
      destruct (fetchJob ctx id w1') as [[job'|e2] w2|w2]; try done.
      cbn [worldOf resultOf] in *. injection Hjob as ->. cbn zeta.
      destruct (Done ctx); cbn; rewrite sends_snoc; repeat split; congruence.
  - split; [|done]. intros e He. cbn. by rewrite Q1, S1.
  - done.
Qed.

End PollForJobs.

(** C7 at a job board that offers job 43 and then fails to serve it (a 500,
    a refused connection, and a 200 whose body does not decode), under a
    canceled context. *)
Lemma pollForJobs_nil_job_witness :
  let w := Sample.world Sample.queue0
             [Sample.ok "ids"; Sample.status 500; Sample.refused; Sample.ok "job"]
             [Some (5 * Second)%Z; Some (6 * Second)%Z] in
  let o := @pollForJobs (Sample.jobBoard ["43"]) Sample.canceled ReadyFirst 0 w in
  resultOf o = Some httpPollStateSleep ∧ sends (trace (worldOf o)) = [(0, None)].
Proof.
  intros w o.
  edestruct (@pollForJobs_nil_job (Sample.jobBoard ["43"]) Sample.canceled 0 w 43%N)
    as (Hr & Hs & _).
  - vm_compute. reflexivity.
  - vm_compute. reflexivity.
  - split; [exact Hr | exact Hs].
Defined.

(** C2 at a job board that serves job 43, under a canceled context: the
    job is delivered, the channel is cleared and the attempt returns
    Break. *)
Lemma pollForJobs_ready_witness :
  let E := Sample.jobBoardWithJob ["43"] "premium"
             (backend.mkStartAttributes "go" "" "" "" "") in
  let w := Sample.world (set_buildJobChan (Some 0) Sample.queue0)
             [Sample.ok "ids"; Sample.ok "job"] [] in
  let o := @pollForJobs E Sample.canceled ReadyFirst 0 w in
  resultOf o = Some httpPollStateBreak ∧ buildJobChan (q (worldOf o)) = None.
Proof.
  intros E w o.
  destruct (@pollForJobs_ready E Sample.canceled 0 w) as (_ & _ & Hok).
  edestruct (Hok 43%N) as (_ & Hr & _ & Hc).
  - vm_compute. reflexivity.
  - vm_compute. reflexivity.
  - split; [exact Hr | exact Hc].
Defined.

(** C2 as stated fails.  The queue has a channel stored and the context is
    canceled.  When the id fetch fails (the connection is refused), the
    attempt returns Sleep and the channel stays stored; the same when the
    id fetch gives job 43 and the detail fetch fails, after the nil job is
    sent. *)
Lemma pollForJobs_ready_counterexample :
  let E := Sample.jobBoard ["43"] in
  let q0 := set_buildJobChan (Some 0) Sample.queue0 in
  let w := Sample.world q0 [Sample.refused] [] in
  let w' := Sample.world q0 [Sample.ok "ids"; Sample.ok "job"] [] in
  Done Sample.canceled = true ∧
  (resultOf (@fetchJobID E Sample.canceled w)
   = Some (Err (Wrap (TransportError "connection refused")
                     "failed to make job board jobs request")) ∧
   resultOf (@pollForJobs E Sample.canceled ReadyFirst 0 w)
   = Some httpPollStateSleep ∧
   buildJobChan (q (worldOf (@pollForJobs E Sample.canceled ReadyFirst 0 w)))
   = Some 0) ∧
  (resultOf (@fetchJobID E Sample.canceled w') = Some (Ok 43%N) ∧
   sends (trace (worldOf (@pollForJobs E Sample.canceled ReadyFirst 0 w')))
   = [(0, None)] ∧
   resultOf (@pollForJobs E Sample.canceled ReadyFirst 0 w')
   = Some httpPollStateSleep ∧
   buildJobChan (q (worldOf (@pollForJobs E Sample.canceled ReadyFirst 0 w')))
   = Some 0).
Proof. repeat split; by vm_compute. Qed.

(** ** The queue facade and the frame of the operations *)

Lemma sameConfig_refl (q0 : HTTPJobQueue) : sameConfig q0 q0.
Proof. unfold sameConfig. by destruct q0. Qed.

Lemma sameConfig_trans (q0 q1 q2 : HTTPJobQueue) :
  sameConfig q0 q1 → sameConfig q1 q2 → sameConfig q0 q2.
Proof. unfold sameConfig. intros -> ->. reflexivity. Qed.

Lemma sameConfig_set (c : option Chan) (q0 : HTTPJobQueue) :
  sameConfig q0 (set_buildJobChan c q0).
Proof. reflexivity. Qed.

Lemma sameConfig_configOf (q0 q1 : HTTPJobQueue) :
  sameConfig q0 q1 → configOf q1 = configOf q0 ∧ processors q1 = processors q0.
Proof. unfold sameConfig. by intros ->. Qed.

Lemma frames_quiet {A} (m : M A) : quiet m → frames m.
Proof. intros Hm w. destruct (Hm w) as [-> _]. apply sameConfig_refl. Qed.

Lemma frames_bind {A B} (m : M A) (k : A → M B) :
  frames m → (∀ a, frames (k a)) → frames (bind m k).
Proof.
  intros Hm Hk w. unfold bind. specialize (Hm w).
  destruct (m w) as [a w'|w']; cbn in *; [|done].
  eapply sameConfig_trans; [exact Hm | apply Hk].
Qed.

Section Facade.
Context `{Externals}.

Lemma frames_pollForJobs (ctx : Context) (ready : ReadyChan) (c : Chan) :
  frames (pollForJobs ctx ready c).
Proof.
  destruct ready; [|by apply frames_quiet, quiet_ret].
  apply frames_bind; [apply frames_quiet, quiet_fetchJobID|].
  intros [jobID|e]; [|apply frames_quiet, quiet_ret].
  apply frames_bind; [apply frames_quiet, quiet_fetchJob|].
  intros [buildJob|e].
  - intros w. cbn. destruct (Done ctx); cbn; [apply sameConfig_set|apply sameConfig_refl].
  - intros w. apply sameConfig_refl.
Qed.

Lemma frames_pollLoop (attempts : list (Context * ReadyChan)) (c : Chan) :
  frames (pollLoop attempts c).
Proof.
  induction attempts as [|[ctx ready] rest IH]; [by apply frames_quiet, quiet_ret|].
  cbn [pollLoop]. apply frames_bind; [apply frames_pollForJobs|].
  intros [| |]; [|exact IH|by apply frames_quiet, quiet_ret].
  apply frames_bind; [apply frames_quiet, quiet_getQ|]. intros q0.
  apply frames_bind; [by apply frames_quiet, quiet_emit|]. intros _. exact IH.
Qed.

Lemma Jobs_stored (ctx : Context) (ready : ReadyChan) (w : World) (c : Chan) :
  buildJobChan (q w) = Some c → Jobs ctx ready w = Returns (c, None) w.
Proof. intros Hc. unfold Jobs, bind, getQ. by rewrite Hc. Qed.

Lemma Jobs_first (ctx : Context) (ready : ReadyChan) (w : World) :
  buildJobChan (q w) = None →
  Jobs ctx ready w
  = Returns (nextChan w, None)
      {| q := set_buildJobChan (Some (nextChan w)) (q w);
         transport := transport w; nextBackOffs := nextBackOffs w;
         trace := trace w ++ [EvGo (nextChan w)]; nextChan := S (nextChan w) |}.
Proof. intros Hc. unfold Jobs, bind, getQ. by rewrite Hc. Qed.

Lemma frames_Jobs (ctx : Context) (ready : ReadyChan) : frames (Jobs ctx ready).
Proof.
  intros w. destruct (buildJobChan (q w)) as [c|] eqn:Hc.
  - rewrite (Jobs_stored _ _ _ _ Hc). apply sameConfig_refl.
  - rewrite (Jobs_first _ _ _ Hc). apply sameConfig_set.
Qed.

Lemma callJobs_stored (calls : list (Context * ReadyChan)) (w : World) (c : Chan) :
  buildJobChan (q w) = Some c →
  callJobs calls w = Returns (replicate (List.length calls) (c, None)) w.
Proof.
  intros Hc. induction calls as [|[ctx ready] rest IH]; [done|].
  cbn [callJobs]. unfold bind. rewrite (Jobs_stored _ _ _ _ Hc). by rewrite IH.
Qed.

(** C3.  A call of [Jobs] on a queue without a stored channel makes a
    channel, starts one poll loop on it, stores it and returns it; a call
    on a queue with a stored channel returns that channel and does nothing
    else; so in any series of calls that starts on a queue without a stored
    channel (a new queue is one) every call returns the channel of the
    first and one loop is started in all.  [Jobs] returns no error. *)
Theorem Jobs_idempotent :
  (∀ ctx ready w,
     buildJobChan (q w) = None →
     let o := Jobs ctx ready w in
     resultOf o = Some (nextChan w, None) ∧
     buildJobChan (q (worldOf o)) = Some (nextChan w) ∧
     trace (worldOf o) = trace w ++ [EvGo (nextChan w)] ∧
     loopStarts (trace (worldOf o)) = loopStarts (trace w) ++ [nextChan w]) ∧
  (∀ ctx ready w c,
     buildJobChan (q w) = Some c → Jobs ctx ready w = Returns (c, None) w) ∧
  (∀ calls w,
     buildJobChan (q w) = None → calls ≠ [] →
     let o := callJobs calls w in
     resultOf o = Some (replicate (List.length calls) (nextChan w, None)) ∧
     loopStarts (trace (worldOf o)) = loopStarts (trace w) ++ [nextChan w] ∧
     buildJobChan (q (worldOf o)) = Some (nextChan w)) ∧
  (∀ ctx ready w, ∃ c, resultOf (Jobs ctx ready w) = Some (c, None)) ∧
  (∀ pool board site providerName queue workerID,
     buildJobChan (NewHTTPJobQueue pool board site providerName queue workerID).1
     = None).
Proof.
  split; [|split; [|split; [|split]]].
  - intros ctx ready w Hc o. unfold o. rewrite (Jobs_first _ _ _ Hc). cbn.
    by rewrite loopStarts_snoc.
  - apply Jobs_stored.
  - intros [|[ctx ready] rest] w Hc Hne o; [done|]. unfold o.
    cbn [callJobs]. unfold bind. rewrite (Jobs_first _ _ _ Hc).
    rewrite (callJobs_stored rest _ (nextChan w)); [|done]. cbn.
    by rewrite loopStarts_snoc.
  - intros ctx ready w. destruct (buildJobChan (q w)) as [c|] eqn:Hc.
    + rewrite (Jobs_stored _ _ _ _ Hc). by exists c.
    + rewrite (Jobs_first _ _ _ Hc). by eexists.
  - done.
Qed.

(** C9.  Each operation on the queue, the loop of the goroutine included,
    leaves the queue object as it was except for [buildJobChan]: the
    job-board URL, the site, the provider name, the queue name, the worker
    id, the poll interval and the four defaults are unchanged, and so is
    the pool. *)
Theorem operations_frame (ctx : Context) (ready : ReadyChan) (c : Chan)
    (id : N) (attempts : list (Context * ReadyChan)) (w : World) :
  let unchanged (w' : World) :=
    sameConfig (q w) (q w') ∧ configOf (q w') = configOf (q w) ∧
    processors (q w') = processors (q w) in
  unchanged (worldOf (Jobs ctx ready w)) ∧
  unchanged (worldOf (pollForJobs ctx ready c w)) ∧
  unchanged (worldOf (pollLoop attempts c w)) ∧
  unchanged (worldOf (fetchJobID ctx w)) ∧
  unchanged (worldOf (fetchJob ctx id w)) ∧
  unchanged (worldOf (Name w)) ∧
  unchanged (worldOf (Cleanup w)).
Proof.
  intros unchanged.
  assert (Hf : ∀ A (m : M A), frames m → unchanged (worldOf (m w))).
  { intros A m Hm. split; [apply Hm|]. by apply sameConfig_configOf. }
  repeat split_and; apply Hf.
  - apply frames_Jobs.
  - apply frames_pollForJobs.
  - apply frames_pollLoop.
  - apply frames_quiet, quiet_fetchJobID.
  - apply frames_quiet, quiet_fetchJob.
  - by apply frames_quiet, quiet_ret.
  - by apply frames_quiet, quiet_ret.
Qed.

End Facade.

(** C3 at three calls on the new queue of [Sample]: each returns channel 0
    and the trace holds one loop start. *)
Lemma Jobs_idempotent_witness :
  let calls := [(Sample.live, ReadyFirst); (Sample.live, TimeoutFirst);
                (Sample.canceled, ReadyFirst)] in
  let o := @callJobs (Sample.jobBoard []) calls (Sample.world Sample.queue0 [] []) in
  resultOf o = Some [(0, None); (0, None); (0, None)] ∧
  loopStarts (trace (worldOf o)) = [0].
Proof.
  intros calls o.
  destruct (@Jobs_idempotent (Sample.jobBoard [])) as (_ & _ & Hcalls & _).
  destruct (Hcalls calls (Sample.world Sample.queue0 [] [])) as (Hr & Hs & _).
  - reflexivity.
  - discriminate.
  - split; [exact Hr | exact Hs].
Defined.

(** ** The detail fetch *)

Lemma attemptFails_error (r : DoResult) :
  attemptFails r = true ↔ attemptError r ≠ None.
Proof.
  destruct r as [[resp|] err]; cbn.
  - destruct (negb _); cbn; [done|]. apply bool_decide_eq_true.
  - apply bool_decide_eq_true.
Qed.

Lemma attemptFails_spec (r : DoResult) :
  attemptFails r = true ↔
  r.2 ≠ None ∨ ∃ resp, r.1 = Some resp ∧ http.StatusCode resp ≠ http.StatusOK.
Proof.
  destruct r as [[resp|] err]; cbn.
  - rewrite orb_true_iff, negb_true_iff, Z.eqb_neq, bool_decide_eq_true. split.
    + intros [Hs|He]; [right; by exists resp | by left].
    + intros [He|(resp' & [= <-] & Hs)]; [by right | by left].
  - rewrite bool_decide_eq_true. split; [by left|].
    by intros [He|(resp' & [=] & _)].
Qed.

Lemma attemptCloses_spec (r : DoResult) :
  attemptCloses r = true ↔
  ∃ resp, r.1 = Some resp ∧ http.StatusCode resp ≠ http.StatusOK.
Proof.
  destruct r as [[resp|] err]; cbn.
  - rewrite negb_true_iff, Z.eqb_neq. split.
    + intros Hs. by exists resp.
    + by intros (resp' & [= <-] & Hs).
  - split; [done|]. by intros (resp' & [=] & _).
Qed.

(** One call of the retried operation: the request goes out, the body of a
    response with another status than 200 is closed, and the error is that
    of the transport or of the status. *)
Lemma fetchJobAttempt_step (req : JobsRequest) (w : World) (r : DoResult)
    (rest : list DoResult) :
  transport w = r :: rest →
  fetchJobAttempt req w
  = Returns (r.1, attemptError r)
      {| q := q w; transport := rest; nextBackOffs := nextBackOffs w;
         trace := trace w ++ EvDo req :: (if attemptCloses r then [EvClose] else []);
         nextChan := nextChan w |}.
Proof.
  intros Ht. unfold fetchJobAttempt, bind, Do. rewrite Ht.
  destruct r as [[resp|] err]; cbn; [|done].
  destruct (negb _); cbn; [|done]. unfold emitW. cbn. by rewrite <- app_assoc.
Qed.

Lemma retryLoop_succeeds (req : JobsRequest) (b : backoff.ExponentialBackOff)
    (failed : list DoResult) :
  ∀ (sleeps : list Duration) (fuel : nat) (w : World) (r : DoResult)
    (rest : list DoResult) (bs : list (option Duration)),
  transport w = failed ++ r :: rest →
  Forall (λ r, attemptFails r = true) failed →
  attemptFails r = false →
  nextBackOffs w = (Some <$> sleeps) ++ bs →
  List.length sleeps = List.length failed →
  (List.length failed ≤ fuel)%nat →
  retryLoop fuel (fetchJobAttempt req) b w
  = Returns (r.1, None)
      {| q := q w; transport := rest; nextBackOffs := bs;
         trace := trace w ++ retryTrace req failed sleeps ++ [EvDo req];
         nextChan := nextChan w |}.
Proof.
  induction failed as [|f failed IH];
    intros sleeps fuel w r rest bs Ht Hfail Hok Hb Hlen Hfuel.
  - destruct sleeps; [|done]. cbn in Ht, Hb.
    assert (Herr : attemptError r = None).
    { destruct (attemptError r) eqn:He; [|done].
      assert (attemptFails r = true) by (apply attemptFails_error; congruence).
      congruence. }
    assert (Hcl : attemptCloses r = false).
    { destruct r as [[resp|] err]; [|done]. cbn in *.
      by apply orb_false_iff in Hok as [-> _]. }
    destruct fuel; cbn [retryLoop]; unfold bind;
      rewrite (fetchJobAttempt_step req w r rest Ht); cbn [snd];
      rewrite Herr, Hcl; cbn; by rewrite Hb.
  - destruct sleeps as [|d sleeps]; [done|]. destruct fuel as [|fuel]; [cbn in Hfuel; lia|].
    cbn in Ht, Hb, Hlen, Hfuel. apply Forall_cons in Hfail as [Hf Hfail].
    apply attemptFails_error in Hf.
    destruct (attemptError f) as [err|] eqn:He; [|done].
    cbn [retryLoop]. unfold bind at 1.
    rewrite (fetchJobAttempt_step req w f _ Ht). cbn [snd]. rewrite He.
    unfold bind, NextBackOff. cbn -[retryLoop retryTrace]. rewrite Hb.
    cbn -[retryLoop retryTrace].
    erewrite (IH sleeps fuel _ r rest bs); cbn; try done; try lia.
    f_equal. f_equal. rewrite <- !app_assoc. cbn.
    destruct (attemptCloses f); cbn; by rewrite <- ?app_assoc.
Qed.

Lemma retryLoop_stops (req : JobsRequest) (b : backoff.ExponentialBackOff)
    (failed : list DoResult) :
  ∀ (sleeps : list Duration) (fuel : nat) (w : World) (r : DoResult)
    (rest : list DoResult) (stop : list (option Duration)) (err : error),
  transport w = failed ++ r :: rest →
  Forall (λ r, attemptFails r = true) failed →
  attemptError r = Some err →
  nextBackOffs w = (Some <$> sleeps) ++ stop →
  head stop = None ∨ head stop = Some None →
  List.length sleeps = List.length failed →
  (List.length failed ≤ fuel)%nat →
  retryLoop fuel (fetchJobAttempt req) b w
  = Returns (r.1, Some err)
      {| q := q w; transport := rest; nextBackOffs := tail stop;
         trace := trace w ++ retryTrace req failed sleeps
                    ++ EvDo req :: (if attemptCloses r then [EvClose] else []);
         nextChan := nextChan w |}.
Proof.
  induction failed as [|f failed IH];
    intros sleeps fuel w r rest stop err Ht Hfail Herr Hb Hstop Hlen Hfuel.
  - destruct sleeps; [|done]. cbn in Ht, Hb.
    assert (Hnext : mjoin (head (nextBackOffs w)) = None).
    { rewrite Hb. by destruct Hstop as [-> | ->]. }
    destruct fuel; cbn [retryLoop]; unfold bind;
      rewrite (fetchJobAttempt_step req w r rest Ht); cbn [snd];
      rewrite Herr; unfold NextBackOff; cbn [nextBackOffs];
      rewrite Hnext; cbn; by rewrite Hb.
  - destruct sleeps as [|d sleeps]; [done|].
    destruct fuel as [|fuel]; [cbn in Hfuel; lia|].
    cbn in Ht, Hb, Hlen, Hfuel. apply Forall_cons in Hfail as [Hf Hfail].
    apply attemptFails_error in Hf.
    destruct (attemptError f) as [errf|] eqn:He; [|done].
    cbn [retryLoop]. unfold bind at 1.
    rewrite (fetchJobAttempt_step req w f _ Ht). cbn [snd]. rewrite He.
    unfold bind, NextBackOff. cbn -[retryLoop retryTrace]. rewrite Hb.
    cbn -[retryLoop retryTrace].
    erewrite (IH sleeps fuel _ r rest stop err); cbn; try done; try lia.
    f_equal. f_equal. rewrite <- !app_assoc. cbn.
    destruct (attemptCloses f); cbn; by rewrite <- ?app_assoc.
Qed.

Section FetchJob.
Context `{Externals}.

Lemma mergeStartAttributes_world q0 payload startAttrs (w : World) :
  worldOf (mergeStartAttributes q0 payload startAttrs w) = w.
Proof.
  unfold mergeStartAttributes.
  destruct startAttrs as [sa|]; [|done].
  destruct (Data_sa sa) as [data|]; [|done].
  by destruct (Config data), (Data payload).
Qed.

(** Reading the job has no effect on the world. *)
Lemma readJob_world (q0 : HTTPJobQueue) (resp : http.Response) (w : World) :
  worldOf (readJob q0 resp w) = w.
Proof.
  unfold readJob.
  destruct (http.RespBody resp) as [err|body]; [done|].
  destruct (unmarshalPayload body) as [err|payload]; [done|].
  destruct (unmarshalStartAttrs body) as [err|startAttrs]; [done|].
  destruct (NewJson body) as [err|raw]; [done|].
  unfold bind.
  pose proof (mergeStartAttributes_world q0 payload startAttrs w) as Hw.
  by destruct (mergeStartAttributes q0 payload startAttrs w).
Qed.

Lemma deferClose_world {A} (m : M A) (w : World) :
  worldOf (deferClose m w) = emitW EvClose (worldOf (m w)).
Proof. unfold deferClose. by destruct (m w). Qed.

Lemma deferClose_result {A} (m : M A) (w : World) :
  resultOf (deferClose m w) = resultOf (m w).
Proof. unfold deferClose. by destruct (m w). Qed.

(** The detail fetch when the job board fails some attempts and then
    answers 200: what is left to do is to read the job. *)
Lemma fetchJob_served (ctx : Context) (id : N) (w : World)
    (failed : list DoResult) (resp : http.Response) (rest : list DoResult)
    (sleeps : list Duration) (bs : list (option Duration)) :
  transport w = failed ++ (Some resp, None) :: rest →
  Forall (λ r, attemptFails r = true) failed →
  http.StatusCode resp = http.StatusOK →
  nextBackOffs w = (Some <$> sleeps) ++ bs →
  List.length sleeps = List.length failed →
  fetchJob ctx id w
  = deferClose (readJob (q w) resp)
      {| q := q w; transport := rest; nextBackOffs := bs;
         trace := trace w ++ retryTrace (fetchJobRequest (q w) id) failed sleeps
                    ++ [EvDo (fetchJobRequest (q w) id)];
         nextChan := nextChan w |}.
Proof.
  intros Ht Hfail Hs Hb Hlen.
  unfold fetchJob, bind at 1, getQ. unfold bind, Retry.
  erewrite (retryLoop_succeeds _ _ failed sleeps _ w (Some resp, None) rest bs);
    try done.
  - cbn. by rewrite Hs.
  - rewrite Hb, length_app, length_fmap. lia.
Qed.

(** The detail fetch when the backoff policy stops the retry. *)
Lemma fetchJob_stopped (ctx : Context) (id : N) (w : World)
    (failed : list DoResult) (r : DoResult) (rest : list DoResult)
    (sleeps : list Duration) (stop : list (option Duration)) (err : error) :
  transport w = failed ++ r :: rest →
  Forall (λ r, attemptFails r = true) failed →
  attemptError r = Some err →
  nextBackOffs w = (Some <$> sleeps) ++ stop →
  head stop = None ∨ head stop = Some None →
  List.length sleeps = List.length failed →
  fetchJob ctx id w
  = Returns (Err (Wrap err "error making job board job request"))
      {| q := q w; transport := rest; nextBackOffs := tail stop;
         trace := trace w ++ retryTrace (fetchJobRequest (q w) id) failed sleeps
                    ++ EvDo (fetchJobRequest (q w) id)
                         :: (if attemptCloses r then [EvClose] else []);
         nextChan := nextChan w |}.
Proof.
  intros Ht Hfail Herr Hb Hstop Hlen.
  unfold fetchJob, bind at 1, getQ. unfold bind, Retry.
  erewrite (retryLoop_stops _ _ failed sleeps _ w r rest stop err); try done.
  - by destruct r.1.
  - rewrite Hb, length_app, length_fmap. lia.
Qed.

End FetchJob.

Lemma requests_app (t1 t2 : list Event) :
  requests (t1 ++ t2) = requests t1 ++ requests t2.
Proof. unfold requests. apply omap_app. Qed.

Lemma requests_retryTrace (req : JobsRequest) (failed : list DoResult) :
  ∀ sleeps : list Duration,
  List.length sleeps = List.length failed →
  requests (retryTrace req failed sleeps) = replicate (List.length failed) req.
Proof.
  induction failed as [|f failed IH]; intros [|d sleeps] Hlen; try done.
  cbn [retryTrace List.length replicate].
  rewrite <- (IH sleeps) by (cbn in Hlen; lia).
  by destruct (attemptCloses f).
Qed.

Section FetchJobRetry.
Context `{Externals}.

(** C6.  The backoff policy of the detail fetch caps the interval at 10
    seconds and the elapsed time at 1 minute.  One attempt returns an error
    exactly when the transport returned an error or the response has
    another status than 200, and in the second case it has closed the body
    by then.  When the job board fails some attempts, the policy allowing a
    retry after each, and then answers 200, the detail fetch sends the
    request once per failed attempt, each followed by its close (if any)
    and its sleep, and once more; it takes nothing further from the
    transport, whatever becomes of the body: a failure to read it or to
    decode it in any of the three parses is returned as the error of the
    call.  When the policy stops the retry, the error of the last attempt
    is returned. *)
Theorem fetchJob_retry :
  (backoff.MaxInterval fetchJobBackOff = (10 * Second)%Z ∧
   backoff.MaxElapsedTime fetchJobBackOff = (1 * Minute)%Z) ∧
  (∀ req w r rest,
     transport w = r :: rest →
     let o := fetchJobAttempt req w in
     ∃ err, resultOf o = Some (r.1, err) ∧
       (err ≠ None ↔
        r.2 ≠ None ∨
        ∃ resp, r.1 = Some resp ∧ http.StatusCode resp ≠ http.StatusOK) ∧
       (attemptCloses r = true ↔
        ∃ resp, r.1 = Some resp ∧ http.StatusCode resp ≠ http.StatusOK) ∧
       trace (worldOf o)
       = trace w ++ EvDo req :: (if attemptCloses r then [EvClose] else [])) ∧
  (∀ ctx id w failed resp rest sleeps bs,
     transport w = failed ++ (Some resp, None) :: rest →
     Forall (λ r, attemptFails r = true) failed →
     http.StatusCode resp = http.StatusOK →
     nextBackOffs w = (Some <$> sleeps) ++ bs →
     List.length sleeps = List.length failed →
     let o := fetchJob ctx id w in
     let req := fetchJobRequest (q w) id in
     trace (worldOf o)
     = trace w ++ retryTrace req failed sleeps ++ [EvDo req; EvClose] ∧
     requests (trace (worldOf o))
     = requests (trace w) ++ replicate (S (List.length failed)) req ∧
     transport (worldOf o) = rest ∧
     nextBackOffs (worldOf o) = bs ∧
     (∀ e, http.RespBody resp = inl e →
        resultOf o
        = Some (Err (Wrap e "error reading body from job board job request"))) ∧
     (∀ body e,
        http.RespBody resp = inr body → unmarshalPayload body = inl e →
        resultOf o = Some (Err (Wrap e "failed to unmarshal job board payload"))) ∧
     (∀ body payload e,
        http.RespBody resp = inr body → unmarshalPayload body = inr payload →
        unmarshalStartAttrs body = inl e →
        resultOf o
        = Some (Err (Wrap e "failed to unmarshal start attributes from job board"))) ∧
     (∀ body payload startAttrs e,
        http.RespBody resp = inr body → unmarshalPayload body = inr payload →
        unmarshalStartAttrs body = inr startAttrs → NewJson body = inl e →
        resultOf o
        = Some (Err (Wrap e "failed to parse raw payload with simplejson")))) ∧
  (∀ ctx id w failed r rest sleeps stop err,
     transport w = failed ++ r :: rest →
     Forall (λ r, attemptFails r = true) failed →
     attemptError r = Some err →
     nextBackOffs w = (Some <$> sleeps) ++ stop →
     head stop = None ∨ head stop = Some None →
     List.length sleeps = List.length failed →
     let o := fetchJob ctx id w in
     resultOf o = Some (Err (Wrap err "error making job board job request")) ∧
     transport (worldOf o) = rest ∧
     requests (trace (worldOf o))
     = requests (trace w)
         ++ replicate (S (List.length failed)) (fetchJobRequest (q w) id)).
Proof.
  split; [done|]. split; [|split].
  - intros req w r rest Ht o. unfold o.
    rewrite (fetchJobAttempt_step req w r rest Ht). cbn.
    exists (attemptError r). split; [done|]. split; [|split; [|done]].
    + rewrite <- attemptFails_spec. symmetry. apply attemptFails_error.
    + apply attemptCloses_spec.
  - intros ctx id w failed resp rest sleeps bs Ht Hfail Hs Hb Hlen o req.
    unfold o. rewrite (fetchJob_served ctx id w failed resp rest sleeps bs) by done.
    fold req. rewrite deferClose_world, deferClose_result, readJob_world.
    cbn [trace emitW transport nextBackOffs].
    split; [by rewrite <- !app_assoc|]. split.
    { rewrite !requests_app, requests_retryTrace by done.
      change (requests [EvClose]) with (@nil JobsRequest).
      change (requests [EvDo req]) with [req].
      rewrite app_nil_r. cbn [replicate]. by rewrite replicate_cons_app. }
    do 2 (split; [done|]). unfold readJob.
    split; [by intros e ->|]. split; [by intros body e -> ->|].
    split; [by intros body payload e -> -> ->|].
    by intros body payload startAttrs e -> -> -> ->.
  - intros ctx id w failed r rest sleeps stop err Ht Hfail Herr Hb Hstop Hlen o.
    unfold o.
    rewrite (fetchJob_stopped ctx id w failed r rest sleeps stop err) by done.
    cbn. split; [done|]. split; [done|].
    rewrite !requests_app, requests_retryTrace by done.
    f_equal. cbn [replicate]. rewrite replicate_cons_app. f_equal.
    by destruct (attemptCloses r).
Qed.

End FetchJobRetry.

(** C6 at a job board that answers the detail fetch with a 500, a refused
    connection and then a 200 whose body does not decode: three requests go
    out, the body of the 500 is closed before the first sleep, and the
    decode error is returned with the fourth answer still unread. *)
Lemma fetchJob_retry_witness :
  let w := Sample.world Sample.queue0
             [Sample.status 500; Sample.refused; Sample.ok "job"; Sample.ok "next"]
             [Some (5 * Second)%Z; Some (6 * Second)%Z; Some (7 * Second)%Z] in
  let o := @fetchJob (Sample.jobBoard []) Sample.live 43 w in
  let req := fetchJobRequest Sample.queue0 43 in
  trace (worldOf o)
  = [EvDo req; EvClose; EvSleep (5 * Second)%Z; EvDo req; EvSleep (6 * Second)%Z;
     EvDo req; EvClose] ∧
  transport (worldOf o) = [Sample.ok "next"] ∧
  resultOf o
  = Some (Err (Wrap (DecodeError "unexpected end of JSON input")
                    "failed to unmarshal job board payload")).
Proof.
  intros w o req.
  destruct (@fetchJob_retry (Sample.jobBoard [])) as (_ & _ & Hserved & _).
  destruct (Hserved Sample.live 43%N w [Sample.status 500; Sample.refused]
              {| http.StatusCode := 200; http.RespBody := inr "job" |}
              [Sample.ok "next"] [(5 * Second)%Z; (6 * Second)%Z]
              [Some (7 * Second)%Z])
    as (Htrace & _ & Htransport & _ & _ & Hdecode & _).
  - reflexivity.
  - repeat constructor.
  - reflexivity.
  - reflexivity.
  - reflexivity.
  - split; [exact Htrace|]. split; [exact Htransport|].
    apply (Hdecode "job"); reflexivity.
Defined.

Section FetchJobVMType.
Context `{Externals}.

Lemma fetchJob_ok_readJob (ctx : Context) (id : N) (w : World) (job : httpJob) :
  resultOf (fetchJob ctx id w) = Some (Ok job) →
  ∃ resp w1, resultOf (readJob (q w) resp w1) = Some (Ok job).
Proof.
  unfold fetchJob, bind at 1, getQ. unfold bind at 1.
  destruct (Retry _ _ w) as [[[resp|] [err|]] w1|w1]; try done.
  rewrite deferClose_result. intros Hjob. by exists resp, w1.
Qed.

Lemma readJob_ok (q0 : HTTPJobQueue) (resp : http.Response) (w : World)
    (job : httpJob) :
  resultOf (readJob q0 resp w) = Some (Ok job) →
  ∃ body startAttrs data config payloadData,
    http.RespBody resp = inr body ∧
    unmarshalPayload body = inr (payload job) ∧
    unmarshalStartAttrs body = inr (Some startAttrs) ∧
    Data_sa startAttrs = Some data ∧ Config data = Some config ∧
    Data (payload job) = Some payloadData ∧
    startAttributes job
    = backend.SetDefaults (DefaultLanguage q0) (DefaultDist q0)
        (DefaultGroup q0) (DefaultOS q0) VMTypeDefault
        (backend.set_VMType (VMType payloadData) config).
Proof.
  unfold readJob.
  destruct (http.RespBody resp) as [err|body]; [done|].
  destruct (unmarshalPayload body) as [err|payload0] eqn:Hp; [done|].
  destruct (unmarshalStartAttrs body) as [err|startAttrs] eqn:Hsa; [done|].
  destruct (NewJson body) as [err|raw]; [done|].
  unfold bind, mergeStartAttributes.
  destruct startAttrs as [sa|]; [|done].
  destruct (Data_sa sa) as [data|] eqn:Hd; [|done].
  destruct (Config data) as [config|] eqn:Hc; [|done].
  destruct (Data payload0) as [payloadData|] eqn:Hpd; [|done].
  cbn. intros [= <-]. cbn. by exists body, sa, data, config, payloadData.
Qed.

(** C4, as amended.  In a job that [fetchJob] returns, the VM type of the
    start attributes is the VM type of the payload whenever the payload has
    one, whatever VM type the parsed start attributes carried; when the
    payload's VM type is empty it is the default VM type. *)
Theorem fetchJob_VMType (ctx : Context) (id : N) (w : World) (job : httpJob) :
  resultOf (fetchJob ctx id w) = Some (Ok job) →
  ∃ payloadData config,
    Data (payload job) = Some payloadData ∧
    startAttributes job
    = backend.SetDefaults (DefaultLanguage (q w)) (DefaultDist (q w))
        (DefaultGroup (q w)) (DefaultOS (q w)) VMTypeDefault
        (backend.set_VMType (VMType payloadData) config) ∧
    (VMType payloadData ≠ "" →
     backend.VMType (startAttributes job) = VMType payloadData) ∧
    (VMType payloadData = "" →
     backend.VMType (startAttributes job) = VMTypeDefault).
Proof.
  intros Hjob.
  destruct (fetchJob_ok_readJob ctx id w job Hjob) as (resp & w1 & Hread).
  destruct (readJob_ok (q w) resp w1 job Hread)
    as (body & sa & data & config & payloadData & _ & _ & _ & _ & _ & Hpd & Hsa).
  exists payloadData, config. split; [done|]. split; [done|].
  rewrite Hsa. cbn. unfold backend.orDefault.
  destruct (String.eqb_spec (VMType payloadData) ""); split; congruence.
Qed.

End FetchJobVMType.

(** C4 at a job whose payload has the VM type "premium" while the start
    attributes in the response say "standard": the job has "premium". *)
Lemma fetchJob_VMType_witness :
  let E := Sample.jobBoardWithJob ["43"] "premium"
             (backend.mkStartAttributes "go" "" "" "" "standard") in
  let w := Sample.world Sample.queue0 [Sample.ok "job"] [] in
  ∃ job, resultOf (@fetchJob E Sample.live 43 w) = Some (Ok job) ∧
         backend.VMType (startAttributes job) = "premium".
Proof.
  intros E w.
  eexists. split; [vm_compute; reflexivity|].
  edestruct (@fetchJob_VMType E Sample.live 43%N w)
    as (payloadData & config & Hpd & _ & Hvm & _).
  - vm_compute. reflexivity.
  - cbn in Hpd. injection Hpd as <-. apply Hvm. discriminate.
Defined.

(** C4 as stated fails: a job whose payload has no VM type, with the
    default VM type "default", gets the VM type "default" in its start
    attributes, which is not the payload's (empty) VM type. *)
Lemma fetchJob_VMType_counterexample :
  let E := Sample.jobBoardWithJob ["43"] ""
             (backend.mkStartAttributes "go" "" "" "" "standard") in
  let w := Sample.world Sample.queue0 [Sample.ok "job"] [] in
  ∃ job, resultOf (@fetchJob E Sample.live 43 w) = Some (Ok job) ∧
         Data (payload job) = Some {| VMType := "" |} ∧
         backend.VMType (startAttributes job) = "default" ∧
         backend.VMType (startAttributes job) ≠ "".
Proof.
  intros E w. eexists. split; [vm_compute; reflexivity|].
  repeat split; by vm_compute.
Qed.

(** ** Further properties of the id fetch *)

Section FetchJobIDPaths.
Context `{Externals}.

(** The id fetch along each of its paths. *)
Lemma fetchJobID_paths (ctx : Context) (w : World) :
  let sent (events : list Event) :=
    {| q := q w; transport := tail (transport w);
       nextBackOffs := nextBackOffs w;
       trace := trace w ++ events; nextChan := nextChan w |} in
  let req := sentRequest (q w) in
  fetchJobID ctx w
  = match nextAnswer w with
    | (_, Some err) =>
        Returns (Err (Wrap err "failed to make job board jobs request"))
                (sent [EvDo req])
    | (None, None) => Panics (sent [EvDo req])
    | (Some resp, None) =>
        match decodeBody resp with
        | inl err =>
            Returns (Err (Wrap err "failed to decode job board jobs response"))
                    (sent [EvDo req; EvClose])
        | inr None => Panics (sent [EvDo req; EvClose])
        | inr (Some payload) =>
            Returns
              match filterJobIDs (Jobs_resp payload) (inFlight (q w)) [] with
              | Err e => Err e
              | Ok jobIDs => firstJobID jobIDs
              end
              (sent [EvDo req; EvClose])
        end
    end.
Proof.
  intros sent req.
  unfold fetchJobID, bind, getQ, Do, deferClose, nextAnswer.
  fold (sentRequest (q w)). fold req. fold (inFlight (q w)).
  destruct (transport w) as [|[[resp|] [err|]] rest]; cbn -[decodeBody]; try done.
  destruct (decodeBody resp) as [err|[payload|]]; cbn;
    try (unfold sent, emitW; cbn; by rewrite <- app_assoc).
  destruct (filterJobIDs _ _ _); cbn; unfold sent, emitW; cbn;
    by rewrite <- app_assoc.
Qed.

(** The streaming decoder on a body whose read fails. *)
Lemma decodeBody_failed (resp : http.Response) (failure : http.ReadFailure) :
  http.RespBody resp = inl failure →
  decodeBody resp
  = if completeValue (http.delivered failure)
    then decodeFetchJobsResponse (http.delivered failure)
    else inl (http.cause failure).
Proof. intros Hb. unfold decodeBody. by rewrite Hb. Qed.

End FetchJobIDPaths.

Lemma parseDigits_bound (s : string) :
  ∀ n id, (n ≤ strconv.maxUint64)%N → strconv.parseDigits s n = inr id →
          (id ≤ strconv.maxUint64)%N.
Proof.
  induction s as [|c s IH]; intros n id Hn; cbn [strconv.parseDigits].
  - by intros [= <-].
  - destruct (strconv.digit c) as [d|]; [|done].
    destruct (strconv.cutoff <=? n)%N; [done|].
    destruct (strconv.maxUint64 <? n * 10 + d)%N eqn:Hmax; [done|].
    apply IH. by apply N.ltb_ge in Hmax.
Qed.

Lemma parsed_bound (strID : string) (id : N) :
  parsed strID = Some id → (id ≤ strconv.maxUint64)%N.
Proof.
  unfold parsed, strconv.ParseUint. destruct strID as [|c s]; [done|].
  destruct (strconv.parseDigits (String c s) 0) as [e|id'] eqn:Hp; [done|].
  intros [= <-]. by apply (parseDigits_bound (String c s) 0%N).
Qed.

(** What the loop returned, read back: every remaining candidate parsed, and
    the ids are their values in response order. *)
Lemma filterJobIDs_ok (l : list string) (jobIDs : list N) :
  filterJobIDs l [] [] = Ok jobIDs →
  Forall (λ s, is_Some (parsed s)) l ∧ jobIDs = omap parsed l.
Proof.
  intros Hok. destruct (parsed_all_or_not l) as [Hall|Hex].
  - split; [done|]. rewrite (filterJobIDs_all_parsed l [] Hall) in Hok.
    by injection Hok as <-.
  - destruct (filterJobIDs_not_parsed l [] Hex) as (t & e & _ & _ & Heq).
    congruence.
Qed.

Lemma filterJobIDs_first (l : list string) (jobIDs : list N) (id : N) :
  filterJobIDs l [] [] = Ok jobIDs → firstJobID jobIDs = Ok id →
  ∃ strID others, l = strID :: others ∧ parsed strID = Some id.
Proof.
  intros Hok Hfirst. apply filterJobIDs_ok in Hok as [Hall ->].
  destruct l as [|s others]; [done|].
  apply Forall_cons in Hall as [[id' Hs] _]. cbn in Hfirst. rewrite Hs in Hfirst.
  cbn in Hfirst. injection Hfirst as ->. by exists s, others.
Qed.

Lemma filterJobIDs_none (l : list string) (jobIDs : list N) :
  filterJobIDs l [] [] = Ok jobIDs → firstJobID jobIDs = Err httpJobQueueNoJobsErr →
  l = [].
Proof.
  intros Hok Hfirst. apply filterJobIDs_ok in Hok as [Hall ->].
  destruct l as [|s others]; [done|].
  apply Forall_cons in Hall as [[id' Hs] _]. cbn in Hfirst. by rewrite Hs in Hfirst.
Qed.

Section FetchJobIDMore.
Context `{Externals}.

(** An id the fetch returns is the value of the first candidate that is not
    in flight. *)
Lemma fetchJobID_ok_first (ctx : Context) (w : World) (id : N) :
  resultOf (fetchJobID ctx w) = Some (Ok id) →
  ∃ resp payload strID others,
    nextAnswer w = (Some resp, None) ∧
    decodeBody resp = inr (Some payload) ∧
    remaining (Jobs_resp payload) (inFlight (q w)) = strID :: others ∧
    parsed strID = Some id.
Proof.
  rewrite fetchJobID_paths.
  destruct (nextAnswer w) as [[resp|] [err|]]; try done.
  destruct (decodeBody resp) as [err|[payload|]] eqn:Hd; try done.
  cbn [resultOf]. rewrite filterJobIDs_remaining.
  destruct (filterJobIDs _ [] []) as [jobIDs|e] eqn:Hf; [|done].
  intros [= Hfirst].
  destruct (filterJobIDs_first _ _ _ Hf Hfirst) as (s & others & Hrem & Hs).
  by exists resp, payload, s, others.
Qed.

(** X1.  The id fetch does not look at the status of the response: two
    responses with the same body give the same result, whatever their
    status codes. *)
Theorem fetchJobID_ignores_status (ctx : Context) (w w' : World)
    (resp resp' : http.Response) (rest rest' : list DoResult) :
  transport w = (Some resp, None) :: rest →
  transport w' = (Some resp', None) :: rest' →
  q w' = q w →
  http.RespBody resp' = http.RespBody resp →
  resultOf (fetchJobID ctx w') = resultOf (fetchJobID ctx w).
Proof.
  intros Ht Ht' Hq Hb. rewrite !fetchJobID_paths. unfold nextAnswer.
  rewrite Ht, Ht', Hq.
  replace (decodeBody resp') with (decodeBody resp)
    by (unfold decodeBody; by rewrite Hb).
  by destruct (decodeBody resp) as [err|[payload|]].
Qed.

(** X2.  On every path the id fetch takes one answer from the transport and
    adds to the trace its one request and, exactly when a response came
    without an error, the close of its body (also when the body does not
    decode and when the call panics); it never sleeps and never asks the
    backoff policy. *)
Theorem fetchJobID_trace (ctx : Context) (w : World) :
  let o := fetchJobID ctx w in
  trace (worldOf o)
  = trace w ++ EvDo (sentRequest (q w))
      :: match nextAnswer w with
         | (Some _, None) => [EvClose]
         | _ => []
         end ∧
  transport (worldOf o) = tail (transport w) ∧
  nextBackOffs (worldOf o) = nextBackOffs w ∧
  sleepsOf (trace (worldOf o)) = sleepsOf (trace w).
Proof.
  intros o. unfold o. rewrite fetchJobID_paths.
  destruct (nextAnswer w) as [[resp|] [err|]]; cbn -[decodeBody];
    try (by unfold sleepsOf; rewrite omap_app, app_nil_r).
  destruct (decodeBody resp) as [err|[payload|]]; cbn;
    by unfold sleepsOf; rewrite omap_app, app_nil_r.
Qed.

(** X3.  The id fetch returns the "no jobs available" error exactly when a
    response came without an error, the decoder got a value from its body
    (the body was read to its end, or its read failed only after a whole
    value had been delivered), the value decoded, and every candidate in
    it is in flight (an empty list included): the error never stands for a
    transport, decode or parse failure. *)
Theorem fetchJobID_no_jobs_iff (ctx : Context) (w : World) :
  resultOf (fetchJobID ctx w) = Some (Err httpJobQueueNoJobsErr) ↔
  ∃ resp body payload,
    nextAnswer w = (Some resp, None) ∧
    (http.RespBody resp = inr body ∨
     ∃ failure, http.RespBody resp = inl failure ∧
                http.delivered failure = body ∧ completeValue body = true) ∧
    decodeFetchJobsResponse body = inr (Some payload) ∧
    remaining (Jobs_resp payload) (inFlight (q w)) = [].
Proof.
  rewrite fetchJobID_paths. split.
  - destruct (nextAnswer w) as [[resp|] [err|]]; try done.
    destruct (decodeBody resp) as [err|[payload|]] eqn:Hd; try done.
    cbn [resultOf]. rewrite filterJobIDs_remaining.
    assert (Hbody : ∃ body,
      (http.RespBody resp = inr body ∨
       ∃ failure, http.RespBody resp = inl failure ∧
                  http.delivered failure = body ∧ completeValue body = true) ∧
      decodeFetchJobsResponse body = inr (Some payload)).
    { unfold decodeBody in Hd.
      destruct (http.RespBody resp) as [failure|body] eqn:Hb.
      - destruct (completeValue (http.delivered failure)) eqn:Hc; [|done].
        exists (http.delivered failure). split; [|done]. right. by exists failure.
      - exists body. split; [by left|done]. }
    destruct Hbody as (body & Hread & Hdec).
    destruct (filterJobIDs _ [] []) as [jobIDs|e] eqn:Hf.
    + intros [= Hfirst]. exists resp, body, payload.
      by rewrite (filterJobIDs_none _ _ Hf Hfirst).
    + intros [= ->].
      destruct (parsed_all_or_not (remaining (Jobs_resp payload) (inFlight (q w))))
        as [Hall|Hex].
      * by rewrite (filterJobIDs_all_parsed _ [] Hall) in Hf.
      * destruct (filterJobIDs_not_parsed _ [] Hex) as (t & e & _ & _ & Heq).
        congruence.
  - intros (resp & body & payload & -> & Hread & Hd & Hrem).
    assert (Hdb : decodeBody resp = inr (Some payload)).
    { destruct Hread as [Hb|(failure & Hb & <- & Hc)].
      - by rewrite (decodeBody_read resp body Hb).
      - by rewrite (decodeBody_failed resp failure Hb), Hc. }
    rewrite Hdb. cbn [resultOf]. by rewrite filterJobIDs_remaining, Hrem.
Qed.


(** X5.  When the candidates of the response are written the way
    [FormatUint] writes ids, the id the fetch returns is not the last job
    id of any processor that is processing: the queue does not hand out a
    job the pool reports as running. *)
Theorem fetchJobID_not_running (ctx : Context) (w : World)
    (resp : http.Response) (rest : list DoResult) (body : string)
    (jobs : list string) (id : N) :
  transport w = (Some resp, None) :: rest →
  http.RespBody resp = inr body →
  decodeFetchJobsResponse body = inr (Some {| Jobs_resp := jobs |}) →
  Forall canonical jobs →
  resultOf (fetchJobID ctx w) = Some (Ok id) →
  ∀ i p, (i, p) ∈ visited (processors (q w)) →
         CurrentStatus p = "processing" → LastJobID p ≠ id.
Proof.
  intros Ht Hb Hd Hcanon Hok i p Hin Hp Heq.
  destruct (fetchJobID_ok_first ctx w id Hok)
    as (resp' & payload & s & others & Hna & Hd' & Hrem & Hs).
  unfold nextAnswer in Hna. rewrite Ht in Hna. injection Hna as <-.
  rewrite (decodeBody_read resp body Hb), Hd in Hd'. injection Hd' as <-.
  cbn [Jobs_resp] in Hrem.
  assert (Hs_in : s ∈ remaining jobs (inFlight (q w))) by (rewrite Hrem; by left).
  unfold remaining in Hs_in. apply list_elem_of_filter in Hs_in as [Hnot Hjobs].
  rewrite Forall_forall in Hcanon. specialize (Hcanon s Hjobs id Hs).
  apply Hnot. rewrite inFlight_processing, list_elem_of_fmap.
  exists (i, p). split; [by rewrite Hcanon, <- Heq|].
  by apply list_elem_of_filter.
Qed.

(** X6.  An id the fetch returns fits in 64 bits. *)
Theorem fetchJobID_uint64 (ctx : Context) (w : World) (id : N) :
  resultOf (fetchJobID ctx w) = Some (Ok id) → (id ≤ strconv.maxUint64)%N.
Proof.
  intros Hok.
  destruct (fetchJobID_ok_first ctx w id Hok) as (_ & _ & s & _ & _ & _ & _ & Hs).
  by apply (parsed_bound s).
Qed.

End FetchJobIDMore.

(** ** Further properties of the detail fetch *)

Lemma fetchJobAttempt_any (req : JobsRequest) (w : World) :
  fetchJobAttempt req w
  = Returns ((nextAnswer w).1, attemptError (nextAnswer w))
      {| q := q w; transport := tail (transport w);
         nextBackOffs := nextBackOffs w;
         trace := trace w
                    ++ EvDo req
                         :: (if attemptCloses (nextAnswer w) then [EvClose] else []);
         nextChan := nextChan w |}.
Proof.
  unfold nextAnswer. destruct (transport w) as [|r rest] eqn:Ht.
  - unfold fetchJobAttempt, bind, Do. rewrite Ht. reflexivity.
  - apply fetchJobAttempt_step. exact Ht.
Qed.

Lemma sleepsOf_app (t1 t2 : list Event) :
  sleepsOf (t1 ++ t2) = sleepsOf t1 ++ sleepsOf t2.
Proof. unfold sleepsOf. apply omap_app. Qed.

Lemma attemptError_none (r : DoResult) (resp : http.Response) :
  attemptError r = None → r.1 = Some resp →
  http.StatusCode resp = http.StatusOK ∧ r = (Some resp, None).
Proof.
  destruct r as [[resp'|] err]; cbn; [|done].
  destruct (http.StatusCode resp' =? http.StatusOK)%Z eqn:Hs; cbn; [|done].
  intros -> [= ->]. split; [by apply Z.eqb_eq|done].
Qed.

Lemma nextAnswer_response (w : World) (resp : http.Response) :
  nextAnswer w = (Some resp, None) → (Some resp, None) ∈ transport w.
Proof.
  unfold nextAnswer. destruct (transport w) as [|r rest]; [done|].
  intros ->. by left.
Qed.

(** The retry of the detail fetch in any world: it returns; it sends the
    request [n] times, at least once, and sleeps between two sends for the
    delay the policy gave; it takes [n] answers from the transport; and a
    response it returns without an error has the status 200 and is one of
    the answers of the transport. *)
Lemma retryLoop_any (req : JobsRequest) (b : backoff.ExponentialBackOff)
    (fuel : nat) :
  ∀ w : World, ∃ (n : nat) (ds : list Duration) (x : option http.Response)
    (e : option error) (w' : World),
    retryLoop fuel (fetchJobAttempt req) b w = Returns (x, e) w' ∧
    (1 ≤ n)%nat ∧
    requests (trace w') = requests (trace w) ++ replicate n req ∧
    sleepsOf (trace w') = sleepsOf (trace w) ++ ds ∧
    S (List.length ds) = n ∧
    (Some <$> ds) `prefix_of` nextBackOffs w ∧
    transport w' = drop n (transport w) ∧
    q w' = q w ∧
    (∀ resp, e = None → x = Some resp →
       http.StatusCode resp = http.StatusOK ∧ (Some resp, None) ∈ transport w).
Proof.
  assert (Hone : ∀ (w : World) (x : option http.Response) (e : option error),
    (∀ resp, e = None → x = Some resp →
       http.StatusCode resp = http.StatusOK ∧ (Some resp, None) ∈ transport w) →
    ∀ nb, ∃ (n : nat) (ds : list Duration) (x' : option http.Response)
      (e' : option error) (w' : World),
      Returns (x, e)
        {| q := q w; transport := tail (transport w); nextBackOffs := nb;
           trace := trace w ++ EvDo req
                      :: (if attemptCloses (nextAnswer w) then [EvClose] else []);
           nextChan := nextChan w |}
      = Returns (x', e') w' ∧
      (1 ≤ n)%nat ∧
      requests (trace w') = requests (trace w) ++ replicate n req ∧
      sleepsOf (trace w') = sleepsOf (trace w) ++ ds ∧
      S (List.length ds) = n ∧
      (Some <$> ds) `prefix_of` nextBackOffs w ∧
      transport w' = drop n (transport w) ∧
      q w' = q w ∧
      (∀ resp, e' = None → x' = Some resp →
         http.StatusCode resp = http.StatusOK ∧ (Some resp, None) ∈ transport w)).
  { intros w x e Hresp nb. exists 1%nat, [], x, e. eexists. split; [reflexivity|].
    cbn. rewrite requests_app, sleepsOf_app.
    split; [done|]. split; [by destruct (attemptCloses (nextAnswer w))|].
    split.
    { destruct (attemptCloses (nextAnswer w)); cbn; by rewrite app_nil_r. }
    split; [done|]. split; [apply prefix_nil|].
    split; [by destruct (transport w)|]. by split. }
  assert (Hresp : ∀ (w : World) resp,
    attemptError (nextAnswer w) = None → (nextAnswer w).1 = Some resp →
    http.StatusCode resp = http.StatusOK ∧ (Some resp, None) ∈ transport w).
  { intros w resp He Hx.
    destruct (attemptError_none _ resp He Hx) as [Hs Hr].
    split; [done|]. by apply nextAnswer_response. }
  induction fuel as [|fuel IH]; intros w; cbn [retryLoop]; unfold bind at 1;
    rewrite fetchJobAttempt_any; cbn [snd].
  - destruct (attemptError (nextAnswer w)) as [err|] eqn:He.
    + unfold bind, NextBackOff. cbn.
      destruct (mjoin (head (nextBackOffs w))); apply Hone; by intros resp [=].
    + apply Hone. intros resp _ Hx. by apply Hresp.
  - destruct (attemptError (nextAnswer w)) as [err|] eqn:He.
    2:{ apply Hone. intros resp _ Hx. by apply Hresp. }
    unfold bind at 1, NextBackOff at 1. cbn [nextBackOffs transport q trace nextChan].
    destruct (mjoin (head (nextBackOffs w))) as [d|] eqn:Hnext;
      [|apply Hone; by intros resp [=]].
    assert (Hnb : nextBackOffs w = Some d :: tail (nextBackOffs w)).
    { destruct (nextBackOffs w) as [|[d'|] nb]; try done.
      cbn in Hnext. by injection Hnext as ->. }
    unfold bind at 1, emit at 1, emitW. cbn [nextBackOffs transport q trace nextChan].
    match goal with |- context [retryLoop fuel _ b ?w2] =>
      destruct (IH w2) as (n & ds & x & e & w' & Heq & Hn & Hreq & Hsl & Hlen
                           & Hpre & Htr & Hq & Hok) end.
    cbn [nextBackOffs transport q trace nextChan] in *.
    exists (S n), (d :: ds), x, e, w'. split; [exact Heq|].
    split; [lia|]. split.
    { rewrite Hreq, !requests_app. cbn [replicate].
      replace (requests (EvDo req :: (if attemptCloses (nextAnswer w) then [EvClose] else [])))
        with [req] by (by destruct (attemptCloses (nextAnswer w))).
      change (requests [EvSleep d]) with (@nil JobsRequest).
      rewrite app_nil_r, <- app_assoc. done. }
    split.
    { rewrite Hsl, !sleepsOf_app.
      replace (sleepsOf (EvDo req :: (if attemptCloses (nextAnswer w) then [EvClose] else [])))
        with (@nil Duration) by (by destruct (attemptCloses (nextAnswer w))).
      change (sleepsOf [EvSleep d]) with [d].
      rewrite app_nil_r, <- app_assoc. done. }
    split; [cbn; lia|]. split.
    { rewrite Hnb. cbn [fmap list_fmap]. by apply prefix_cons. }
    split.
    { rewrite Htr. destruct (transport w); [cbn; by rewrite drop_nil|done]. }
    split; [done|].
    intros resp He' Hx. destruct (Hok resp He' Hx) as [Hs Hin].
    split; [done|]. destruct (transport w); [done|]. by right.
Qed.

Section FetchJobMore.
Context `{Externals}.

(** The detail fetch in any world: the retry, then one of the three ways
    the function ends. *)
Lemma fetchJob_any (ctx : Context) (id : N) (w : World) :
  let req := fetchJobRequest (q w) id in
  ∃ (n : nat) (ds : list Duration) (x : option http.Response)
    (e : option error) (w' : World),
    fetchJob ctx id w
    = match x, e with
      | _, Some err =>
          Returns (Err (Wrap err "error making job board job request")) w'
      | None, None => Panics w'
      | Some resp, None => deferClose (readJob (q w) resp) w'
      end ∧
    (1 ≤ n)%nat ∧
    requests (trace w') = requests (trace w) ++ replicate n req ∧
    sleepsOf (trace w') = sleepsOf (trace w) ++ ds ∧
    S (List.length ds) = n ∧
    (Some <$> ds) `prefix_of` nextBackOffs w ∧
    transport w' = drop n (transport w) ∧
    (∀ resp, e = None → x = Some resp →
       http.StatusCode resp = http.StatusOK ∧ (Some resp, None) ∈ transport w).
Proof.
  intros req.
  destruct (retryLoop_any req fetchJobBackOff (List.length (nextBackOffs w)) w)
    as (n & ds & x & e & w' & Heq & Hn & Hreq & Hsl & Hlen & Hpre & Htr & Hq & Hok).
  exists n, ds, x, e, w'. split; [|done].
  unfold fetchJob, bind at 1, getQ. unfold bind, Retry. fold req. rewrite Heq.
  by destruct x, e.
Qed.

(** X7.  In any world the detail fetch sends its request at least once and
    at most once more than the backoff policy has answers left, sends no
    other request, sleeps once between two sends, for the delays the policy
    gave, in their order, and takes one answer from the transport per
    send. *)
Theorem fetchJob_requests (ctx : Context) (id : N) (w : World) :
  let o := fetchJob ctx id w in
  ∃ (n : nat) (ds : list Duration),
    (1 ≤ n ≤ S (List.length (nextBackOffs w)))%nat ∧
    requests (trace (worldOf o))
    = requests (trace w) ++ replicate n (fetchJobRequest (q w) id) ∧
    sleepsOf (trace (worldOf o)) = sleepsOf (trace w) ++ ds ∧
    S (List.length ds) = n ∧
    (Some <$> ds) `prefix_of` nextBackOffs w ∧
    transport (worldOf o) = drop n (transport w).
Proof.
  intros o. unfold o.
  destruct (fetchJob_any ctx id w)
    as (n & ds & x & e & w' & Heq & Hn & Hreq & Hsl & Hlen & Hpre & Htr & _).
  exists n, ds.
  assert (Hbound : (n ≤ S (List.length (nextBackOffs w)))%nat).
  { apply prefix_length in Hpre. rewrite length_fmap in Hpre. lia. }
  rewrite Heq. destruct x as [resp|], e as [err|]; cbn [worldOf]; try done.
  rewrite deferClose_world, readJob_world. cbn [trace transport emitW].
  rewrite requests_app, sleepsOf_app. cbn. by rewrite !app_nil_r.
Qed.

Lemma readJob_ok_fields (q0 : HTTPJobQueue) (resp : http.Response) (w : World)
    (job : httpJob) :
  resultOf (readJob q0 resp w) = Some (Ok job) →
  ∃ body raw,
    http.RespBody resp = inr body ∧
    unmarshalPayload body = inr (payload job) ∧
    NewJson body = inr raw ∧
    rawPayload job = simplejson.Get raw "data" ∧
    job_jobBoardURL job = jobBoardURL q0 ∧
    job_site job = site q0 ∧ job_workerID job = workerID q0.
Proof.
  unfold readJob.
  destruct (http.RespBody resp) as [err|body]; [done|].
  destruct (unmarshalPayload body) as [err|payload0] eqn:Hp; [done|].
  destruct (unmarshalStartAttrs body) as [err|startAttrs]; [done|].
  destruct (NewJson body) as [err|raw] eqn:Hraw; [done|].
  unfold bind.
  destruct (mergeStartAttributes q0 payload0 startAttrs w) as [sa w'|w']; [|done].
  cbn. intros [= <-]. by exists body, raw.
Qed.

(** X8.  A job the detail fetch returns was read from a response that the
    transport gave without an error and with the status 200: its payload
    is the decoded body, its raw payload is the member "data" of the body
    parsed as a tree, and it carries the job-board URL, the site and the
    worker id of the queue. *)
Theorem fetchJob_ok (ctx : Context) (id : N) (w : World) (job : httpJob) :
  resultOf (fetchJob ctx id w) = Some (Ok job) →
  ∃ resp body raw,
    (Some resp, None) ∈ transport w ∧
    http.StatusCode resp = http.StatusOK ∧
    http.RespBody resp = inr body ∧
    unmarshalPayload body = inr (payload job) ∧
    NewJson body = inr raw ∧
    rawPayload job = simplejson.Get raw "data" ∧
    job_jobBoardURL job = jobBoardURL (q w) ∧
    job_site job = site (q w) ∧ job_workerID job = workerID (q w).
Proof.
  destruct (fetchJob_any ctx id w)
    as (n & ds & x & e & w' & Heq & _ & _ & _ & _ & _ & _ & Hok).
  rewrite Heq. destruct x as [resp|], e as [err|]; try done.
  rewrite deferClose_result. intros Hjob.
  destruct (Hok resp eq_refl eq_refl) as [Hs Hin].
  destruct (readJob_ok_fields _ _ _ _ Hjob) as (body & raw & Hrest).
  by exists resp, body, raw.
Qed.

(** X9.  The request of the detail fetch: a GET without a body to the
    scheme and host of the job board, with the path /jobs/ followed by the
    id in decimal, the query of the job-board URL, and the three headers
    Travis-Infrastructure (the provider name), Travis-Site and From. *)
Theorem fetchJobRequest_shape (q0 : HTTPJobQueue) (id : N) :
  let req := fetchJobRequest q0 id in
  http.Method req = "GET" ∧
  http.Body req = None ∧
  url.Scheme (http.URL req) = url.Scheme (jobBoardURL q0) ∧
  url.Host (http.URL req) = url.Host (jobBoardURL q0) ∧
  url.Path (http.URL req) = "/jobs/" +:+ strconv.FormatUint id ∧
  url.RawQuery (http.URL req) = url.RawQuery (jobBoardURL q0) ∧
  http.Header_ req !! "Travis-Infrastructure" = Some [providerName q0] ∧
  http.Header_ req !! "Travis-Site" = Some [site q0] ∧
  http.Header_ req !! "From" = Some [workerID q0] ∧
  (∀ key, key ≠ "Travis-Infrastructure" → key ≠ "Travis-Site" → key ≠ "From" →
     http.Header_ req !! key = None).
Proof.
  intros req. do 6 (split; [reflexivity|]).
  unfold req, fetchJobRequest. cbn -[url.Add].
  split; [by rewrite !lookup_Add; repeat case_decide|].
  split; [by rewrite !lookup_Add; repeat case_decide|].
  split; [by rewrite !lookup_Add; repeat case_decide|].
  intros key H1 H2 H3. rewrite !lookup_Add. by repeat case_decide.
Qed.

(** X10.  When the body of the 200 response passes the three parses but
    leaves a nil pointer behind (the start attributes wrapper, its data or
    their config decoded from a JSON null, or the data of the payload), the
    detail fetch panics instead of returning an error; the body is closed
    all the same. *)
Theorem fetchJob_nil_pointer (ctx : Context) (id : N) (w : World)
    (failed : list DoResult) (resp : http.Response) (rest : list DoResult)
    (sleeps : list Duration) (bs : list (option Duration)) (body : string)
    (payload0 : httpJobPayload) (startAttrs : option httpJobPayloadStartAttrs)
    (raw : simplejson.Json) :
  transport w = failed ++ (Some resp, None) :: rest →
  Forall (λ r, attemptFails r = true) failed →
  http.StatusCode resp = http.StatusOK →
  nextBackOffs w = (Some <$> sleeps) ++ bs →
  List.length sleeps = List.length failed →
  http.RespBody resp = inr body →
  unmarshalPayload body = inr payload0 →
  unmarshalStartAttrs body = inr startAttrs →
  NewJson body = inr raw →
  startAttrs = None ∨
  (∃ sa, startAttrs = Some sa ∧ Data_sa sa = None) ∨
  (∃ sa data, startAttrs = Some sa ∧ Data_sa sa = Some data ∧ Config data = None) ∨
  Data payload0 = None →
  let o := fetchJob ctx id w in
  panicked o ∧
  trace (worldOf o)
  = trace w ++ retryTrace (fetchJobRequest (q w) id) failed sleeps
      ++ [EvDo (fetchJobRequest (q w) id); EvClose].
Proof.
  intros Ht Hfail Hs Hb Hlen Hbody Hp Hsa Hraw Hnil o. unfold o.
  rewrite (fetchJob_served ctx id w failed resp rest sleeps bs) by done.
  split.
  - unfold deferClose, readJob. rewrite Hbody, Hp, Hsa, Hraw.
    unfold bind, mergeStartAttributes.
    destruct Hnil as [->|[(sa & -> & ->)|[(sa & data & -> & -> & ->)|Hpd]]];
      try done.
    destruct startAttrs as [sa|]; [|done].
    destruct (Data_sa sa) as [data|]; [|done].
    rewrite Hpd. by destruct (Config data).
  - rewrite deferClose_world, readJob_world. cbn. by rewrite <- !app_assoc.
Qed.

End FetchJobMore.

(** ** Further properties of the poll attempt and of the loop *)

Section PollMore.
Context `{Externals}.

(** X11.  One poll attempt sends at most one value, on the channel it was
    given, and starts no goroutine: nothing when the timer fired first,
    when the id fetch gave no id and when a fetch panicked; the nil job
    when the detail fetch returned an error; the job when it returned
    one. *)
Theorem pollForJobs_sends (ctx : Context) (ready : ReadyChan) (c : Chan)
    (w : World) :
  let o := pollForJobs ctx ready c w in
  ∃ sent,
    sends (trace (worldOf o)) = sends (trace w) ++ sent ∧
    loopStarts (trace (worldOf o)) = loopStarts (trace w) ∧
    match ready with
    | TimeoutFirst => sent = []
    | ReadyFirst =>
        match resultOf (fetchJobID ctx w) with
        | Some (Ok jobID) =>
            match resultOf (fetchJob ctx jobID (worldOf (fetchJobID ctx w))) with
            | Some (Ok buildJob) => sent = [(c, Some buildJob)]
            | Some (Err _) => sent = [(c, None)]
            | None => sent = [] ∧ panicked o
            end
        | _ => sent = []
        end
    end.
Proof.
  intros o. unfold o. destruct ready.
  2:{ exists []. by rewrite app_nil_r. }
  rewrite pollForJobs_unfold_ready.
  pose proof (quiet_fetchJobID ctx w) as (_ & S1 & L1 & _).
  destruct (fetchJobID ctx w) as [[id|e1] w1|w1]; cbn [worldOf resultOf] in *.
  - pose proof (quiet_fetchJob ctx id w1) as (_ & S2 & L2 & _).
    destruct (fetchJob ctx id w1) as [[job|e2] w2|w2]; cbn [worldOf resultOf] in *.
    + exists [(c, Some job)].
      destruct (Done ctx); cbn; rewrite sends_snoc, loopStarts_snoc, app_nil_r;
        repeat split; congruence.
    + exists [(c, None)]. cbn. rewrite sends_snoc, loopStarts_snoc, app_nil_r.
      repeat split; congruence.
    + exists []. rewrite app_nil_r. repeat split; congruence.
  - exists []. rewrite app_nil_r. by repeat split.
  - exists []. rewrite app_nil_r. by repeat split.
Qed.

(** X12.  When the id fetch gives no id, the attempt does nothing beyond
    the id fetch: no detail request, no send, no sleep, no write to the
    queue; it returns Sleep unless the id fetch panicked. *)
Theorem pollForJobs_no_id (ctx : Context) (c : Chan) (w : World) :
  (∀ jobID, resultOf (fetchJobID ctx w) ≠ Some (Ok jobID)) →
  let o := pollForJobs ctx ReadyFirst c w in
  worldOf o = worldOf (fetchJobID ctx w) ∧
  (resultOf o = Some httpPollStateSleep ∨
   (panicked o ∧ panicked (fetchJobID ctx w))).
Proof.
  intros Hno o. unfold o. rewrite pollForJobs_unfold_ready.
  destruct (fetchJobID ctx w) as [[id|e1] w1|w1]; cbn.
  - by destruct (Hno id).
  - split; [done|by left].
  - split; [done|by right].
Qed.

(** X13.  While the timer fires first in every attempt, the loop has no
    effect at all: no request, no sleep, no send, no write. *)
Theorem pollLoop_timeouts (attempts : list (Context * ReadyChan)) (c : Chan)
    (w : World) :
  Forall (λ a, a.2 = TimeoutFirst) attempts →
  pollLoop attempts c w = Returns tt w.
Proof.
  induction 1 as [|[ctx ready] rest Hhd _ IH]; [done|].
  cbn in Hhd. subst ready. cbn [pollLoop]. unfold bind. cbn. exact IH.
Qed.

Lemma fetchJobID_transport_error (ctx : Context) (w : World)
    (x : option http.Response) (err : error) :
  nextAnswer w = (x, Some err) →
  fetchJobID ctx w
  = Returns (Err (Wrap err "failed to make job board jobs request"))
      {| q := q w; transport := tail (transport w);
         nextBackOffs := nextBackOffs w;
         trace := trace w ++ [EvDo (sentRequest (q w))];
         nextChan := nextChan w |}.
Proof. intros Hna. rewrite fetchJobID_paths, Hna. by destruct x. Qed.

(** X14.  When every answer of the transport is an error, the loop never
    leaves by itself, also under a canceled context: in each attempt in
    which the readiness signal fires it sends the id request once and
    sleeps for the poll interval; it sends nothing on the channel and
    leaves the queue, the stored channel included, as it was. *)
Theorem pollLoop_unreachable (attempts : list (Context * ReadyChan)) (c : Chan) :
  ∀ w : World,
  Forall (λ r : DoResult, r.2 ≠ None) (transport w) →
  Forall (λ a, a.2 = ReadyFirst) attempts →
  let o := pollLoop attempts c w in
  resultOf o = Some tt ∧
  q (worldOf o) = q w ∧
  sends (trace (worldOf o)) = sends (trace w) ∧
  requests (trace (worldOf o))
  = requests (trace w) ++ replicate (List.length attempts) (sentRequest (q w)) ∧
  sleepsOf (trace (worldOf o))
  = sleepsOf (trace w) ++ replicate (List.length attempts) (pollInterval (q w)).
Proof.
  induction attempts as [|[ctx ready] rest IH]; intros w Herr Hready o.
  { cbn. by rewrite !app_nil_r. }
  apply Forall_cons in Hready as [Hr Hready]. cbn in Hr. subst ready.
  assert (∃ x err, nextAnswer w = (x, Some err)) as (x & err & Hna).
  { unfold nextAnswer. destruct (transport w) as [|[x [err|]] l]; eauto.
    apply Forall_cons in Herr as [Hhd _]. by cbn in Hhd. }
  set (w1 := {| q := q w; transport := tail (transport w);
                nextBackOffs := nextBackOffs w;
                trace := trace w ++ [EvDo (sentRequest (q w))];
                nextChan := nextChan w |}).
  assert (Ho : o = pollLoop rest c (emitW (EvSleep (pollInterval (q w))) w1)).
  { unfold o. cbn [pollLoop]. unfold bind at 1.
    rewrite pollForJobs_unfold_ready.
    by rewrite (fetchJobID_transport_error ctx w x err Hna). }
  rewrite Ho. clear Ho o.
  destruct (IH (emitW (EvSleep (pollInterval (q w))) w1))
    as (Hres & Hq & Hs & Hreq & Hsl).
  { cbn. destruct (transport w); [done|]. by apply Forall_cons in Herr as [_ ?]. }
  { done. }
  cbn [q trace emitW w1] in Hres, Hq, Hs, Hreq, Hsl |- *.
  split; [exact Hres|]. split; [exact Hq|]. split.
  { rewrite Hs, !sends_snoc. by rewrite !app_nil_r. }
  split.
  { rewrite Hreq, !requests_app. cbn. by rewrite app_nil_r, <- app_assoc. }
  rewrite Hsl, !sleepsOf_app. cbn. by rewrite app_nil_r, <- app_assoc.
Qed.

(** X15.  Tear-down and restart.  On a queue without a stored channel,
    [Jobs] starts a loop on a new channel; when the loop then delivers a
    job under a canceled context it ends there, whatever attempts would
    follow, with the stored channel cleared; and the next [Jobs] call
    makes another channel, different from the first, starts a second loop
    on it and stores it. *)
Theorem Jobs_restart (ctx0 ctx ctx1 : Context) (ready0 ready1 : ReadyChan)
    (later : list (Context * ReadyChan)) (w : World) (jobID : N)
    (buildJob : httpJob) :
  buildJobChan (q w) = None →
  let c := nextChan w in
  let w1 := worldOf (Jobs ctx0 ready0 w) in
  resultOf (fetchJobID ctx w1) = Some (Ok jobID) →
  resultOf (fetchJob ctx jobID (worldOf (fetchJobID ctx w1))) = Some (Ok buildJob) →
  Done ctx = true →
  let w2 := worldOf (pollLoop ((ctx, ReadyFirst) :: later) c w1) in
  let o := Jobs ctx1 ready1 w2 in
  resultOf (Jobs ctx0 ready0 w) = Some (c, None) ∧
  buildJobChan (q w2) = None ∧
  sends (trace w2) = sends (trace w) ++ [(c, Some buildJob)] ∧
  resultOf o = Some (S c, None) ∧
  buildJobChan (q (worldOf o)) = Some (S c) ∧
  loopStarts (trace (worldOf o)) = loopStarts (trace w) ++ [c; S c].
Proof.
  intros Hc c w1 Hid Hjob Hdone w2 o. subst w1 w2 o.
  rewrite (Jobs_first _ _ _ Hc) in *. cbn [worldOf resultOf] in *.
  fold c in Hid, Hjob |- *.
  set (w1 := {| q := set_buildJobChan (Some c) (q w); transport := transport w;
                nextBackOffs := nextBackOffs w; trace := trace w ++ [EvGo c];
                nextChan := S c |}) in *.
  split; [done|].
  set (w2 := worldOf (pollLoop ((ctx, ReadyFirst) :: later) c w1)).
  assert (Hw2 : buildJobChan (q w2) = None ∧
                sends (trace w2) = sends (trace w) ++ [(c, Some buildJob)] ∧
                loopStarts (trace w2) = loopStarts (trace w) ++ [c] ∧
                nextChan w2 = S c).
  { unfold w2. cbn [pollLoop]. unfold bind. rewrite pollForJobs_unfold_ready.
    pose proof (quiet_fetchJobID ctx w1) as (_ & S1 & L1 & N1).
    destruct (fetchJobID ctx w1) as [[id|e1] w3|w3]; try done.
    cbn [worldOf resultOf] in *. injection Hid as ->.
    pose proof (quiet_fetchJob ctx jobID w3) as (_ & S2 & L2 & N2).
    destruct (fetchJob ctx jobID w3) as [[job|e2] w4|w4]; try done.
    cbn [worldOf resultOf] in *. injection Hjob as ->.
    rewrite Hdone.
    cbn [worldOf q trace emitW nextChan buildJobChan set_buildJobChan ret].
    rewrite sends_snoc, loopStarts_snoc, S2, S1, L2, L1, N2, N1.
    unfold w1. cbn [trace nextChan]. rewrite sends_snoc, loopStarts_snoc.
    by rewrite !app_nil_r. }
  destruct Hw2 as (Hnone & Hs & Hl & Hn).
  split; [done|]. split; [done|].
  rewrite (Jobs_first _ _ _ Hnone). cbn.
  rewrite Hn, loopStarts_snoc, Hl, <- app_assoc. done.
Qed.

End PollMore.

Section PollInvariants.
Context `{Externals}.

(** What one attempt does to the sends and to the queue object. *)
Lemma pollForJobs_effect (ctx : Context) (ready : ReadyChan) (c : Chan)
    (w : World) :
  let o := pollForJobs ctx ready c w in
  ∃ sent,
    sends (trace (worldOf o)) = sends (trace w) ++ sent ∧
    Forall (λ s, s.1 = c) sent ∧
    (resultOf o = Some httpPollStateBreak →
       Done ctx = true ∧ ready = ReadyFirst ∧
       (∃ buildJob, sent = [(c, Some buildJob)]) ∧
       q (worldOf o) = set_buildJobChan None (q w)) ∧
    (resultOf o ≠ Some httpPollStateBreak → q (worldOf o) = q w).
Proof.
  intros o. unfold o. destruct ready.
  2:{ exists []. rewrite app_nil_r. by repeat split. }
  rewrite pollForJobs_unfold_ready.
  pose proof (quiet_fetchJobID ctx w) as (Q1 & S1 & _).
  destruct (fetchJobID ctx w) as [[id|e1] w1|w1]; cbn [worldOf resultOf] in *.
  - pose proof (quiet_fetchJob ctx id w1) as (Q2 & S2 & _).
    destruct (fetchJob ctx id w1) as [[job|e2] w2|w2]; cbn [worldOf resultOf] in *.
    + exists [(c, Some job)]. destruct (Done ctx) eqn:Hdone; cbn;
        rewrite sends_snoc; (split; [congruence|]);
        (split; [by repeat constructor|]); split; try done.
      * intros _. repeat split; [by exists job | congruence].
      * congruence.
    + exists [(c, None)]. cbn. rewrite sends_snoc.
      split; [congruence|]. split; [by repeat constructor|].
      split; [done|]. congruence.
    + exists []. rewrite app_nil_r. split; [congruence|]. split; [constructor|].
      split; [done|]. congruence.
  - exists []. rewrite app_nil_r. by repeat split.
  - exists []. rewrite app_nil_r. by repeat split.
Qed.

(** X16.  An attempt returns Break only when the readiness signal fired,
    a job was fetched and sent on the channel, and the context is done;
    the stored channel is then cleared.  An attempt that returns anything
    else, or panics, leaves the queue object as it was. *)
Theorem pollForJobs_break_only (ctx : Context) (ready : ReadyChan) (c : Chan)
    (w : World) :
  let o := pollForJobs ctx ready c w in
  (resultOf o = Some httpPollStateBreak →
     Done ctx = true ∧ ready = ReadyFirst ∧
     (∃ buildJob,
        sends (trace (worldOf o)) = sends (trace w) ++ [(c, Some buildJob)]) ∧
     buildJobChan (q (worldOf o)) = None) ∧
  (resultOf o ≠ Some httpPollStateBreak → q (worldOf o) = q w).
Proof.
  intros o.
  destruct (pollForJobs_effect ctx ready c w) as (sent & Hs & _ & Hbreak & Hother).
  split; [|exact Hother].
  intros Hb. destruct (Hbreak Hb) as (Hd & Hr & (job & ->) & Hq).
  repeat split; try done.
  - by exists job.
  - unfold o. by rewrite Hq.
Qed.

(** X17.  The loop sends on no other channel than its own, and it never
    stores a channel: after any number of attempts the stored channel is
    the one it found or none. *)
Theorem pollLoop_channel (attempts : list (Context * ReadyChan)) (c : Chan) :
  ∀ w : World,
  let o := pollLoop attempts c w in
  (∃ sent, sends (trace (worldOf o)) = sends (trace w) ++ sent ∧
           Forall (λ s, s.1 = c) sent) ∧
  (buildJobChan (q (worldOf o)) = buildJobChan (q w) ∨
   buildJobChan (q (worldOf o)) = None).
Proof.
  induction attempts as [|[ctx ready] rest IH]; intros w o.
  { split; [|by left]. exists []. by rewrite app_nil_r. }
  destruct (pollForJobs_effect ctx ready c w) as (sent & Hs & Hc & Hbreak & Hother).
  unfold o. cbn [pollLoop]. unfold bind.
  destruct (pollForJobs ctx ready c w) as [[| |] w1|w1] eqn:Hpoll;
    cbn [worldOf resultOf] in *.
  - rewrite Hother in * by done.
    unfold getQ, emit.
    destruct (IH (emitW (EvSleep (pollInterval (q w1))) w1)) as ((sent' & Hs' & Hc') & Hq').
    cbn [q trace emitW] in Hs', Hq'. rewrite sends_snoc, app_nil_r in Hs'.
    split.
    + exists (sent ++ sent'). rewrite Hs', Hs, <- app_assoc.
      split; [done|]. by apply Forall_app.
    + rewrite <- (Hother ltac:(done)). exact Hq'.
  - destruct (IH w1) as ((sent' & Hs' & Hc') & Hq'). split.
    + exists (sent ++ sent'). rewrite Hs', Hs, <- app_assoc.
      split; [done|]. by apply Forall_app.
    + rewrite <- (Hother ltac:(done)). exact Hq'.
  - destruct (Hbreak eq_refl) as (_ & _ & _ & Hq). split.
    + by exists sent.
    + right. cbn. by rewrite Hq.
  - split; [by exists sent|]. left. by rewrite (Hother ltac:(done)).
Qed.

End PollInvariants.

(** X16 at a delivery under a canceled context. *)
Lemma pollForJobs_break_only_witness :
  let E := Sample.jobBoardWithJob ["43"] "premium"
             (backend.mkStartAttributes "go" "" "" "" "") in
  let w := Sample.world (set_buildJobChan (Some 0) Sample.queue0)
             [Sample.ok "ids"; Sample.ok "job"] [] in
  Done Sample.canceled = true ∧
  buildJobChan (q (worldOf (@pollForJobs E Sample.canceled ReadyFirst 0 w))) = None.
Proof.
  intros E w.
  destruct (@pollForJobs_break_only E Sample.canceled ReadyFirst 0%nat w)
    as (Hbreak & _).
  destruct Hbreak as (Hd & _ & _ & Hq); [vm_compute; reflexivity|].
  split; [exact Hd | exact Hq].
Defined.

(** ** The further properties at concrete worlds *)

(** X1 at a 503 and a 200 with the same body: both give job 43. *)
Lemma fetchJobID_ignores_status_witness :
  resultOf (@fetchJobID (Sample.jobBoard ["43"]) Sample.live
              (Sample.world Sample.queue0 [Sample.status 503] []))
  = resultOf (@fetchJobID (Sample.jobBoard ["43"]) Sample.live
                (Sample.world Sample.queue0 [Sample.ok ""] [])).
Proof.
  apply (@fetchJobID_ignores_status (Sample.jobBoard ["43"]) Sample.live
           (Sample.world Sample.queue0 [Sample.ok ""] [])
           (Sample.world Sample.queue0 [Sample.status 503] [])
           {| http.StatusCode := 200; http.RespBody := inr "" |}
           {| http.StatusCode := 503; http.RespBody := inr "" |} [] []);
    reflexivity.
Defined.

(** X3 at a body that delivers a whole value listing the running job 42 and
    whose read then fails. *)
Lemma fetchJobID_no_jobs_iff_witness :
  let brokenRead :=
    {| http.delivered := "ids";
       http.cause := TransportError "connection reset" |} in
  resultOf (@fetchJobID (Sample.jobBoard ["42"]) Sample.live
              (Sample.world Sample.queue0
                 [(Some {| http.StatusCode := 200;
                           http.RespBody := inl brokenRead |}, None)] []))
  = Some (Err httpJobQueueNoJobsErr).
Proof.
  intros brokenRead.
  apply (@fetchJobID_no_jobs_iff (Sample.jobBoard ["42"])).
  exists {| http.StatusCode := 200; http.RespBody := inl brokenRead |}, "ids",
         {| Jobs_resp := ["42"] |}.
  split; [reflexivity|]. split.
  - right. exists brokenRead. by repeat split.
  - split; [reflexivity|]. by vm_compute.
Defined.


(** X5 at the pool of [Sample] and the response ["42"; "43"]: the id
    returned, 43, is not the job 42 of processor 7. *)
Lemma fetchJobID_not_running_witness :
  resultOf (@fetchJobID (Sample.jobBoard ["42"; "43"]) Sample.live
              (Sample.world Sample.queue0 [Sample.ok "ids"] []))
  = Some (Ok 43%N) ∧
  LastJobID {| CurrentStatus := "processing"; LastJobID := 42 |} ≠ 43%N.
Proof.
  split; [vm_compute; reflexivity|].
  apply (@fetchJobID_not_running (Sample.jobBoard ["42"; "43"]) Sample.live
           (Sample.world Sample.queue0 [Sample.ok "ids"] [])
           {| http.StatusCode := 200; http.RespBody := inr "ids" |} [] "ids"
           ["42"; "43"] 43%N eq_refl eq_refl eq_refl) with (i := 7%Z).
  - repeat constructor; intros id Hp; vm_compute in Hp; injection Hp as <-;
      reflexivity.
  - vm_compute. reflexivity.
  - apply list_elem_of_here.
  - reflexivity.
Defined.

(** X6 at the same world. *)
Lemma fetchJobID_uint64_witness :
  resultOf (@fetchJobID (Sample.jobBoard ["42"; "43"]) Sample.live
              (Sample.world Sample.queue0 [Sample.ok "ids"] []))
  = Some (Ok 43%N) ∧
  (43 ≤ strconv.maxUint64)%N.
Proof.
  split; [vm_compute; reflexivity|].
  apply (@fetchJobID_uint64 (Sample.jobBoard ["42"; "43"]) Sample.live
           (Sample.world Sample.queue0 [Sample.ok "ids"] [])).
  vm_compute. reflexivity.
Defined.

(** X8 at a job board that answers the detail fetch with a 500 and then
    serves the job. *)
Lemma fetchJob_ok_witness :
  let E := Sample.jobBoardWithJob ["43"] "premium"
             (backend.mkStartAttributes "go" "" "" "" "") in
  let w := Sample.world Sample.queue0 [Sample.status 500; Sample.ok "job"]
             [Some (5 * Second)%Z] in
  ∃ job resp,
    resultOf (@fetchJob E Sample.live 43 w) = Some (Ok job) ∧
    (Some resp, None) ∈ transport w ∧
    http.StatusCode resp = http.StatusOK ∧
    job_site job = "org".
Proof.
  intros E w. eexists.
  edestruct (@fetchJob_ok E Sample.live 43%N w)
    as (resp & body & raw & Hin & Hs & _ & _ & _ & _ & _ & Hsite & _).
  - vm_compute. reflexivity.
  - exists resp. split; [vm_compute; reflexivity|]. by repeat split.
Defined.

(** X9 at the queue of [Sample]: a header the queue does not set is
    absent. *)
Lemma fetchJobRequest_shape_witness :
  http.Header_ (fetchJobRequest Sample.queue0 43) !! "Accept" = None.
Proof.
  destruct (fetchJobRequest_shape Sample.queue0 43%N)
    as (_ & _ & _ & _ & _ & _ & _ & _ & _ & Hother).
  apply Hother; discriminate.
Defined.

(** X10 at a 200 response whose body decodes to nil start attributes. *)
Lemma fetchJob_nil_pointer_witness :
  let E := Sample.fixedExternals (inr None)
             (inr {| Data := Some {| VMType := "" |} |}) (inr None)
             (inr simplejson.JNull) "default" in
  panicked (@fetchJob E Sample.live 43
              (Sample.world Sample.queue0 [Sample.ok "null"] [])).
Proof.
  intros E.
  apply (@fetchJob_nil_pointer E Sample.live 43%N
           (Sample.world Sample.queue0 [Sample.ok "null"] []) []
           {| http.StatusCode := 200; http.RespBody := inr "null" |} [] [] []
           "null" {| Data := Some {| VMType := "" |} |} None simplejson.JNull);
    try reflexivity.
  - constructor.
  - by left.
Defined.

(** X12 at a refused id fetch. *)
Lemma pollForJobs_no_id_witness :
  let w := Sample.world Sample.queue0 [Sample.refused; Sample.ok "job"] [] in
  worldOf (@pollForJobs (Sample.jobBoard ["43"]) Sample.live ReadyFirst 0 w)
  = worldOf (@fetchJobID (Sample.jobBoard ["43"]) Sample.live w).
Proof.
  intros w.
  apply (@pollForJobs_no_id (Sample.jobBoard ["43"]) Sample.live 0%nat w).
  intros jobID. vm_compute. discriminate.
Defined.

(** X13 at two attempts in which the timer fires first. *)
Lemma pollLoop_timeouts_witness :
  let w := Sample.world Sample.queue0 [Sample.ok "ids"] [] in
  @pollLoop (Sample.jobBoard ["43"])
    [(Sample.live, TimeoutFirst); (Sample.canceled, TimeoutFirst)] 0 w
  = Returns tt w.
Proof.
  intros w. apply (@pollLoop_timeouts (Sample.jobBoard ["43"])).
  repeat constructor.
Defined.

(** X14 at three attempts under a canceled context against a job board
    that refuses every connection. *)
Lemma pollLoop_unreachable_witness :
  let q0 := set_buildJobChan (Some 0) Sample.queue0 in
  let w := Sample.world q0 [Sample.refused; Sample.refused] [] in
  let attempts := [(Sample.canceled, ReadyFirst); (Sample.canceled, ReadyFirst);
                   (Sample.canceled, ReadyFirst)] in
  let o := @pollLoop (Sample.jobBoard ["43"]) attempts 0 w in
  resultOf o = Some tt ∧ buildJobChan (q (worldOf o)) = Some 0 ∧
  sleepsOf (trace (worldOf o)) = [Second; Second; Second].
Proof.
  intros q0 w attempts o.
  destruct (@pollLoop_unreachable (Sample.jobBoard ["43"]) attempts 0%nat w)
    as (Hres & Hq & _ & _ & Hsl).
  - repeat constructor; discriminate.
  - repeat constructor.
  - split; [exact Hres|]. split; [unfold o; rewrite Hq; reflexivity|exact Hsl].
Defined.

(** X15 at a job board that serves job 43 while the context is canceled:
    the first channel is 0, the second is 1. *)
Lemma Jobs_restart_witness :
  let E := Sample.jobBoardWithJob ["43"] "premium"
             (backend.mkStartAttributes "go" "" "" "" "") in
  let w := Sample.world Sample.queue0 [Sample.ok "ids"; Sample.ok "job"] [] in
  let w2 := worldOf (@pollLoop E [(Sample.canceled, ReadyFirst)] 0
                       (worldOf (Jobs Sample.live ReadyFirst w))) in
  resultOf (Jobs Sample.live ReadyFirst w2) = Some (1, None) ∧
  loopStarts (trace (worldOf (Jobs Sample.live ReadyFirst w2))) = [0; 1].
Proof.
  intros E w w2.
  edestruct (@Jobs_restart E Sample.live Sample.canceled Sample.live ReadyFirst
               ReadyFirst [] w 43%N)
    as (_ & _ & _ & Hres & _ & Hloops).
  - reflexivity.
  - vm_compute. reflexivity.
  - vm_compute. reflexivity.
  - reflexivity.
  - split; [exact Hres | exact Hloops].
Defined.
